(** * A shallow embedding of RIOT's CBOR codec (sys/cbor/cbor.c)

    C values are modelled as follows.
    - [size_t], [uint64_t], [int] and bytes are [Z]; wrap-around is written
      out with [size_t], [u64], [to_int32] and [to_int64].
    - A [cbor_stream_t *] is an [option cbor_stream_t]; [None] is the null
      pointer.  The buffer [data] is the memory object the stream points
      to; [size] is the stream's own [size] field.
    - Every access that the C code makes through a null pointer or outside
      a memory object is undefined behaviour; the model returns [Fault]
      there.
    - An out-parameter [T *val] is an [option T]: [None] is the null pointer,
      [Some x] a pointer to a cell currently holding [x].  A deserializer
      returns the byte count together with the new content of the cell. *)

From stdpp Require Import base list.
From Stdlib Require Import ZArith Lia.

Open Scope Z_scope.

(** ** Results: a value or undefined behaviour *)

Inductive res (A : Type) : Type :=
| Fault : res A
| Ok : A -> res A.
Arguments Fault {A}.
Arguments Ok {A} _.

#[export] Instance res_ret : MRet res := @Ok.
#[export] Instance res_bind : MBind res :=
  fun A B f m => match m with Fault => Fault | Ok a => f a end.

(** ** Machine integers *)

Definition size_t (z : Z) : Z := z mod 2 ^ 64.
Definition u64 (z : Z) : Z := z mod 2 ^ 64.
Definition to_int32 (z : Z) : Z :=
  let r := z mod 2 ^ 32 in if r >=? 2 ^ 31 then r - 2 ^ 32 else r.
Definition to_int64 (z : Z) : Z :=
  let r := z mod 2 ^ 64 in if r >=? 2 ^ 63 then r - 2 ^ 64 else r.

(** ** Constants of cbor.c *)

Definition CBOR_TYPE_MASK := 0xE0.
Definition CBOR_INFO_MASK := 0x1F.

Definition CBOR_UINT := 0x00.
Definition CBOR_NEGINT := 0x20.
Definition CBOR_BYTES := 0x40.
Definition CBOR_TEXT := 0x60.
Definition CBOR_ARRAY := 0x80.
Definition CBOR_MAP := 0xA0.
Definition CBOR_TAG := 0xC0.
Definition CBOR_7 := 0xE0.

Definition CBOR_UINT8_FOLLOWS := 24.
Definition CBOR_UINT16_FOLLOWS := 25.
Definition CBOR_UINT32_FOLLOWS := 26.
Definition CBOR_UINT64_FOLLOWS := 27.
Definition CBOR_VAR_FOLLOWS := 31.

Definition CBOR_FALSE := Z.lor CBOR_7 20.
Definition CBOR_TRUE := Z.lor CBOR_7 21.
Definition CBOR_NULL := Z.lor CBOR_7 22.
Definition CBOR_UNDEFINED := Z.lor CBOR_7 23.
Definition CBOR_FLOAT16 := Z.lor CBOR_7 25.
Definition CBOR_FLOAT32 := Z.lor CBOR_7 26.
Definition CBOR_FLOAT64 := Z.lor CBOR_7 27.
Definition CBOR_BREAK := Z.lor CBOR_7 31.

(** ** The stream (cbor.h) *)

Record cbor_stream_t := mk_stream {
  data : list Z;
  size : Z;
  pos : Z
}.

Definition ptr := option cbor_stream_t.

(** A stream as the codec expects it: the cursor inside [0, size], and the
    [size] field not larger than the buffer it describes. *)
Definition stream_wf (s : cbor_stream_t) : Prop :=
  0 <= pos s <= size s /\ size s <= Z.of_nat (length (data s)) /\ size s < 2 ^ 64.

(** [s->data[i]] *)
Definition rd (s : cbor_stream_t) (i : Z) : res Z :=
  if 0 <=? i then
    match data s !! Z.to_nat i with Some b => Ok b | None => Fault end
  else Fault.

Definition deref {A} (p : option A) : res A :=
  match p with Some s => Ok s | None => Fault end.

(** [CBOR_TYPE(stream, offset)] and [CBOR_ADDITIONAL_INFO(stream, offset)] *)
Definition CBOR_TYPE (p : ptr) (offset : Z) : res Z :=
  s ← deref p; b ← rd s offset; mret (Z.land b CBOR_TYPE_MASK).
Definition CBOR_ADDITIONAL_INFO (p : ptr) (offset : Z) : res Z :=
  s ← deref p; b ← rd s offset; mret (Z.land b CBOR_INFO_MASK).

(** [s->data[s->pos++] = b] (the store truncates to [unsigned char]) *)
Definition push (p : ptr) (b : Z) : res ptr :=
  s ← deref p;
  if (0 <=? pos s) && (Z.to_nat (pos s) <? length (data s))%nat then
    mret (Some (mk_stream (<[Z.to_nat (pos s) := Z.land b 0xFF]> (data s))
                          (size s) (size_t (pos s + 1))))
  else Fault.

(** [memcpy(&s->data[s->pos], src, |src|)]: the cursor does not move *)
Fixpoint write_at (l : list Z) (i : nat) (src : list Z) : res (list Z) :=
  match src with
  | [] => mret l
  | b :: src' =>
      if (i <? length l)%nat then write_at (<[i := Z.land b 0xFF]> l) (S i) src'
      else Fault
  end.

Definition memcpy_stream (p : ptr) (src : list Z) : res ptr :=
  s ← deref p;
  if 0 <=? pos s then
    d ← write_at (data s) (Z.to_nat (pos s)) src;
    mret (Some (mk_stream d (size s) (pos s)))
  else Fault.

(** [s->pos += n] *)
Definition advance (p : ptr) (n : Z) : res ptr :=
  s ← deref p; mret (Some (mk_stream (data s) (size s) (size_t (pos s + n)))).

(** [CBOR_ENSURE_SIZE(stream, bytes)]: return 0 from the enclosing function
    when [stream->pos + bytes >= stream->size], otherwise continue with [k]. *)
Definition CBOR_ENSURE_SIZE (p : ptr) (bytes : Z) (k : res (Z * ptr)) : res (Z * ptr) :=
  s ← deref p;
  if size_t (pos s + bytes) >=? size s then mret (0, p) else k.

(** ** Head codec *)

Definition encode_int (major_type : Z) (s : ptr) (val : Z) : res (Z * ptr) :=
  match s with
  | None => mret (0, s)
  | Some _ =>
    if val <=? 23 then
      CBOR_ENSURE_SIZE s 1 (
        s1 ← push s (Z.lor major_type val);
        mret (1, s1))
    else if val <=? 0xff then
      CBOR_ENSURE_SIZE s 2 (
        s1 ← push s (Z.lor major_type CBOR_UINT8_FOLLOWS);
        s2 ← push s1 (Z.land val 0xff);
        mret (2, s2))
    else if val <=? 0xffff then
      CBOR_ENSURE_SIZE s 3 (
        s1 ← push s (Z.lor major_type CBOR_UINT16_FOLLOWS);
        s2 ← push s1 (Z.land (Z.shiftr val 8) 0xff);
        s3 ← push s2 (Z.land val 0xff);
        mret (3, s3))
    else if val <=? 0xffffffff then
      CBOR_ENSURE_SIZE s 5 (
        s1 ← push s (Z.lor major_type CBOR_UINT32_FOLLOWS);
        s2 ← push s1 (Z.land (Z.shiftr val 24) 0xff);
        s3 ← push s2 (Z.land (Z.shiftr val 16) 0xff);
        s4 ← push s3 (Z.land (Z.shiftr val 8) 0xff);
        s5 ← push s4 (Z.land val 0xff);
        mret (5, s5))
    else
      CBOR_ENSURE_SIZE s 9 (
        s1 ← push s (Z.lor major_type CBOR_UINT64_FOLLOWS);
        s2 ← push s1 (Z.land (Z.shiftr val 56) 0xff);
        s3 ← push s2 (Z.land (Z.shiftr val 48) 0xff);
        s4 ← push s3 (Z.land (Z.shiftr val 40) 0xff);
        s5 ← push s4 (Z.land (Z.shiftr val 32) 0xff);
        s6 ← push s5 (Z.land (Z.shiftr val 24) 0xff);
        s7 ← push s6 (Z.land (Z.shiftr val 16) 0xff);
        s8 ← push s7 (Z.land (Z.shiftr val 8) 0xff);
        s9 ← push s8 (Z.land val 0xff);
        mret (9, s9))
  end.

(** [decode_int(s, offset, &val)]: returns the byte count and the final
    content of [*val] (its content [val0] on entry is kept on the null-stream
    path only). *)
Definition decode_int (s : ptr) (offset : Z) (val0 : Z) : res (Z * Z) :=
  match s with
  | None => mret (0, val0)
  | Some st =>
    d0 ← rd st offset;
    let additional_info := Z.land d0 CBOR_INFO_MASK in
    if additional_info <=? 23 then mret (1, Z.land d0 CBOR_INFO_MASK)
    else if additional_info =? CBOR_UINT8_FOLLOWS then
      d1 ← rd st (offset + 1); mret (2, d1)
    else if additional_info =? CBOR_UINT16_FOLLOWS then
      d1 ← rd st (offset + 1); d2 ← rd st (offset + 2);
      mret (3, Z.lor (Z.shiftl d1 8) d2)
    else if additional_info =? CBOR_UINT32_FOLLOWS then
      d1 ← rd st (offset + 1); d2 ← rd st (offset + 2);
      d3 ← rd st (offset + 3); d4 ← rd st (offset + 4);
      mret (5, Z.lor (Z.lor (Z.lor (Z.shiftl d1 24) (Z.shiftl d2 16))
                            (Z.shiftl d3 8)) d4)
    else if additional_info =? CBOR_UINT64_FOLLOWS then
      d1 ← rd st (offset + 1); d2 ← rd st (offset + 2);
      d3 ← rd st (offset + 3); d4 ← rd st (offset + 4);
      d5 ← rd st (offset + 5); d6 ← rd st (offset + 6);
      d7 ← rd st (offset + 7); d8 ← rd st (offset + 8);
      mret (9, Z.lor (Z.lor (Z.lor (Z.lor (Z.lor (Z.lor (Z.lor
                 (Z.shiftl d1 56) (Z.shiftl d2 48)) (Z.shiftl d3 40))
                 (Z.shiftl d4 32)) (Z.shiftl d5 24)) (Z.shiftl d6 16))
                 (Z.shiftl d7 8)) d8)
    else mret (0, 0)
  end.

(** ** Integers *)

Definition is_null {A} (o : option A) : bool :=
  match o with None => true | Some _ => false end.

(** [cbor_deserialize_int]: the local [buf] is uninitialised; [decode_int]
    overwrites it since the stream is non-null once [CBOR_TYPE] succeeded. *)
Definition cbor_deserialize_int (stream : ptr) (offset : Z) (val : option Z)
    : res (Z * option Z) :=
  t ← CBOR_TYPE stream offset;
  if (negb (t =? CBOR_UINT) && negb (t =? CBOR_NEGINT)) || is_null val then
    mret (0, val)
  else
    '(read_bytes, buf) ← decode_int stream offset 0;
    t' ← CBOR_TYPE stream offset;
    if t' =? CBOR_UINT then mret (read_bytes, Some (to_int32 buf))
    else mret (read_bytes, Some (to_int32 (u64 (-1 - buf)))).

Definition cbor_serialize_int (s : ptr) (val : Z) : res (Z * ptr) :=
  if val >=? 0 then encode_int CBOR_UINT s (u64 val)
  else encode_int CBOR_NEGINT s (u64 (-1 - val)).

Definition cbor_deserialize_uint64_t (stream : ptr) (offset : Z) (val : option Z)
    : res (Z * option Z) :=
  t ← CBOR_TYPE stream offset;
  if negb (t =? CBOR_UINT) || is_null val then mret (0, val)
  else
    '(n, v) ← decode_int stream offset (default 0 val);
    mret (n, Some v).

Definition cbor_serialize_uint64_t (s : ptr) (val : Z) : res (Z * ptr) :=
  encode_int CBOR_UINT s val.

Definition cbor_deserialize_int64_t (stream : ptr) (offset : Z) (val : option Z)
    : res (Z * option Z) :=
  t ← CBOR_TYPE stream offset;
  if (negb (t =? CBOR_UINT) && negb (t =? CBOR_NEGINT)) || is_null val then
    mret (0, val)
  else
    '(read_bytes, buf) ← decode_int stream offset 0;
    t' ← CBOR_TYPE stream offset;
    if t' =? CBOR_UINT then mret (read_bytes, Some (to_int64 buf))
    else mret (read_bytes, Some (to_int64 (u64 (-1 - buf)))).

Definition cbor_serialize_int64_t (s : ptr) (val : Z) : res (Z * ptr) :=
  if val >=? 0 then encode_int CBOR_UINT s (u64 val)
  else encode_int CBOR_NEGINT s (u64 (-1 - val)).

(** ** Booleans *)

Definition cbor_deserialize_bool (stream : ptr) (offset : Z) (val : option bool)
    : res (Z * option bool) :=
  t ← CBOR_TYPE stream offset;
  if negb (t =? CBOR_7) || is_null val then mret (0, val)
  else
    st ← deref stream;
    byte ← rd st offset;
    mret (1, Some (byte =? CBOR_TRUE)).

Definition cbor_serialize_bool (s : ptr) (val : bool) : res (Z * ptr) :=
  CBOR_ENSURE_SIZE s 1 (
    s1 ← push s (if val then CBOR_TRUE else CBOR_FALSE);
    mret (1, s1)).

(** ** Floats, given by their IEEE-754 bit patterns *)

(** The [n] bytes of [x] in network (big-endian) order, as [HTONS], [HTONL]
    and [htonll] leave them in memory. *)
Fixpoint be_bytes (n : nat) (x : Z) : list Z :=
  match n with
  | O => []
  | S n' => Z.land (Z.shiftr x (8 * Z.of_nat n')) 0xff :: be_bytes n' x
  end.

Definition u16 (z : Z) : Z := z mod 2 ^ 16.

(** [encode_float_half], on the bit pattern [i] of the [float] argument *)
Definition encode_float_half (i : Z) : Z :=
  let bits := Z.land (Z.shiftr i 16) 0x8000 in
  let m := Z.land (Z.shiftr i 12) 0x07ff in
  let e := Z.land (Z.shiftr i 23) 0xff in
  if e <? 103 then bits
  else if e >? 142 then
    let bits := Z.lor bits 0x7c00 in
    Z.lor bits (if (e =? 255) && negb (Z.land i 0x007fffff =? 0) then 1 else 0)
  else if e <? 113 then
    let m := Z.lor m 0x0800 in
    u16 (Z.lor bits (Z.shiftr m (114 - e) + Z.land (Z.shiftr m (113 - e)) 1))
  else
    let bits := u16 (Z.lor bits (Z.lor (Z.shiftl (e - 112) 10) (Z.shiftr m 1))) in
    u16 (bits + Z.land m 1).

Definition cbor_serialize_float_half (s : ptr) (val : Z) : res (Z * ptr) :=
  CBOR_ENSURE_SIZE s 3 (
    s1 ← push s CBOR_FLOAT16;
    s2 ← memcpy_stream s1 (be_bytes 2 (encode_float_half val));
    s3 ← advance s2 2;
    mret (3, s3)).

Definition cbor_serialize_float (s : ptr) (val : Z) : res (Z * ptr) :=
  CBOR_ENSURE_SIZE s 5 (
    s1 ← push s CBOR_FLOAT32;
    s2 ← memcpy_stream s1 (be_bytes 4 val);
    s3 ← advance s2 4;
    mret (5, s3)).

Definition cbor_serialize_double (s : ptr) (val : Z) : res (Z * ptr) :=
  CBOR_ENSURE_SIZE s 9 (
    s1 ← push s CBOR_FLOAT64;
    s2 ← memcpy_stream s1 (be_bytes 8 val);
    s3 ← advance s2 8;
    mret (9, s3)).

(** ** Byte and text strings *)

(** [strlen] over the bytes of the object a [const char *] points to;
    running off its end without a terminator is undefined. *)
Fixpoint strlen (str : list Z) : res Z :=
  match str with
  | [] => Fault
  | c :: str' => if c =? 0 then mret 0 else n ← strlen str'; mret (n + 1)
  end.

(** Reading [n] bytes of an object from index [i] (the source of a
    [memcpy]). *)
Definition read_bytes (l : list Z) (i n : Z) : res (list Z) :=
  if (0 <=? i) && (0 <=? n) && (i + n <=? Z.of_nat (length l)) then
    mret (take (Z.to_nat n) (drop (Z.to_nat i) l))
  else Fault.

Definition encode_bytes (major_type : Z) (s : ptr) (str : list Z) (length : Z)
    : res (Z * ptr) :=
  '(bytes_start, s1) ← encode_int major_type s (u64 length);
  if bytes_start =? 0 then mret (0, s1)
  else
    CBOR_ENSURE_SIZE s1 length (
      src ← read_bytes str 0 length;
      s2 ← memcpy_stream s1 src;
      s3 ← advance s2 length;
      mret (bytes_start + length, s3)).

(** [decode_bytes(s, offset, out, length)]; [out] is the caller's buffer. *)
Definition decode_bytes (s : ptr) (offset : Z) (out : option (list Z)) (length : Z)
    : res (Z * option (list Z)) :=
  t ← CBOR_TYPE s offset;
  if (negb (t =? CBOR_BYTES) && negb (t =? CBOR_TEXT)) || is_null s || is_null out then
    mret (0, out)
  else
    st ← deref s;
    buf ← deref out;
    '(bytes_start, bytes_length) ← decode_int s offset 0;
    if bytes_start =? 0 then mret (0, out)
    else if size_t (length + 1) <? bytes_length then mret (0, out)
    else
      src ← read_bytes (data st) (offset + bytes_start) bytes_length;
      buf1 ← write_at buf 0 src;
      buf2 ← write_at buf1 (Z.to_nat bytes_length) [0];
      mret (bytes_start + bytes_length, Some buf2).

Definition cbor_deserialize_byte_string (stream : ptr) (offset : Z)
    (val : option (list Z)) (length : Z) : res (Z * option (list Z)) :=
  t ← CBOR_TYPE stream offset;
  if negb (t =? CBOR_BYTES) then mret (0, val)
  else decode_bytes stream offset val length.

Definition cbor_serialize_byte_string (stream : ptr) (val : list Z) : res (Z * ptr) :=
  n ← strlen val; encode_bytes CBOR_BYTES stream val n.

Definition cbor_deserialize_unicode_string (stream : ptr) (offset : Z)
    (val : option (list Z)) (length : Z) : res (Z * option (list Z)) :=
  t ← CBOR_TYPE stream offset;
  if negb (t =? CBOR_TEXT) then mret (0, val)
  else decode_bytes stream offset val length.

Definition cbor_serialize_unicode_string (stream : ptr) (val : list Z) : res (Z * ptr) :=
  n ← strlen val; encode_bytes CBOR_TEXT stream val n.

(** ** Arrays, maps, tags and breaks *)

Definition cbor_serialize_array (s : ptr) (array_length : Z) : res (Z * ptr) :=
  encode_int CBOR_ARRAY s array_length.

Definition cbor_serialize_indefinite_array (s : ptr) : res (Z * ptr) :=
  CBOR_ENSURE_SIZE s 1 (
    s1 ← push s (Z.lor CBOR_ARRAY CBOR_VAR_FOLLOWS); mret (1, s1)).

Definition cbor_serialize_indefinite_map (s : ptr) : res (Z * ptr) :=
  CBOR_ENSURE_SIZE s 1 (
    s1 ← push s (Z.lor CBOR_MAP CBOR_VAR_FOLLOWS); mret (1, s1)).

Definition cbor_serialize_map (s : ptr) (map_length : Z) : res (Z * ptr) :=
  encode_int CBOR_MAP s map_length.

Definition cbor_write_tag (s : ptr) (tag : Z) : res (Z * ptr) :=
  CBOR_ENSURE_SIZE s 1 (s1 ← push s (Z.lor CBOR_TAG tag); mret (1, s1)).

Definition cbor_write_break (s : ptr) : res (Z * ptr) :=
  CBOR_ENSURE_SIZE s 1 (s1 ← push s CBOR_BREAK; mret (1, s1)).

(** [cbor_at_end]: [s->pos - 1] is computed in [size_t]. *)
Definition cbor_at_end (s : ptr) (offset : Z) : bool :=
  match s with
  | Some st => size_t (pos st - 1) <=? offset
  | None => true
  end.

Definition cbor_at_break (s : ptr) (offset : Z) : res bool :=
  if cbor_at_end s offset then mret true
  else st ← deref s; b ← rd st offset; mret (b =? CBOR_BREAK).

Definition cbor_at_tag (s : ptr) (offset : Z) : res bool :=
  if cbor_at_end s offset then mret true
  else t ← CBOR_TYPE s offset; mret (t =? CBOR_TAG).

Definition empty_stream (n : nat) : cbor_stream_t :=
  mk_stream (repeat 0 n) (Z.of_nat n) 0.

(** ** The head bytes [encode_int] emits, and writes into a buffer *)

(** The byte sequence [encode_int major_type s val] stores, branch by branch. *)
Definition head_bytes (major_type val : Z) : list Z :=
  if val <=? 23 then [Z.lor major_type val]
  else if val <=? 0xff then [Z.lor major_type CBOR_UINT8_FOLLOWS; Z.land val 0xff]
  else if val <=? 0xffff then
    [Z.lor major_type CBOR_UINT16_FOLLOWS; Z.land (Z.shiftr val 8) 0xff; Z.land val 0xff]
  else if val <=? 0xffffffff then
    [Z.lor major_type CBOR_UINT32_FOLLOWS; Z.land (Z.shiftr val 24) 0xff;
     Z.land (Z.shiftr val 16) 0xff; Z.land (Z.shiftr val 8) 0xff; Z.land val 0xff]
  else
    [Z.lor major_type CBOR_UINT64_FOLLOWS; Z.land (Z.shiftr val 56) 0xff;
     Z.land (Z.shiftr val 48) 0xff; Z.land (Z.shiftr val 40) 0xff;
     Z.land (Z.shiftr val 32) 0xff; Z.land (Z.shiftr val 24) 0xff;
     Z.land (Z.shiftr val 16) 0xff; Z.land (Z.shiftr val 8) 0xff; Z.land val 0xff].

(** [bs] stored byte by byte from index [i] on. *)
Fixpoint list_write (l : list Z) (i : nat) (bs : list Z) : list Z :=
  match bs with
  | [] => l
  | b :: bs' => list_write (<[i := Z.land b 0xFF]> l) (S i) bs'
  end.

(** The byte count of a serializer's result ([0] on undefined behaviour). *)
Definition count_of (r : res (Z * ptr)) : Z :=
  match r with Ok (n, _) => n | Fault => 0 end.

(** The minimum-width law as the spec states it (section 4.2), to compare
    [encode_int] against. *)
Definition spec_min_width (N : Z) : Z :=
  if N <=? 23 then 1 else if N <=? 0xFF then 2 else if N <=? 0xFFFF then 3
  else if N <=? 0xFFFFFFFF then 5 else 9.

(** The initial bytes of the eight major types. *)
Definition majors : list Z := [0x00; 0x20; 0x40; 0x60; 0x80; 0xA0; 0xC0; 0xE0].

(** ** Stream set-up: [cbor_init], [cbor_clear], [cbor_destroy] *)

(** [stream->data = 0] in [cbor_destroy] is modelled by the empty object:
    every read through it is undefined, as through the null pointer. *)
Definition cbor_init (stream : ptr) (buffer : list Z) (sz : Z) : ptr :=
  match stream with
  | None => None
  | Some _ => Some (mk_stream buffer sz 0)
  end.

Definition cbor_clear (stream : ptr) : ptr :=
  match stream with
  | None => None
  | Some st => Some (mk_stream (data st) (size st) 0)
  end.

Definition cbor_destroy (stream : ptr) : ptr :=
  match stream with
  | None => None
  | Some _ => Some (mk_stream [] 0 0)
  end.

(** ** Array, map and indefinite-length heads on the decoding side *)

(** The local [uint64_t val] is uninitialised; [decode_int] overwrites it
    since the stream is non-null once [CBOR_TYPE] succeeded. *)
Definition cbor_deserialize_array (s : ptr) (offset : Z) (array_length : option Z)
    : res (Z * option Z) :=
  t ← CBOR_TYPE s offset;
  if negb (t =? CBOR_ARRAY) || is_null array_length then mret (0, array_length)
  else
    '(read_bytes, v) ← decode_int s offset 0;
    mret (read_bytes, Some (size_t v)).

Definition cbor_deserialize_map (s : ptr) (offset : Z) (map_length : option Z)
    : res (Z * option Z) :=
  t ← CBOR_TYPE s offset;
  if negb (t =? CBOR_MAP) || is_null map_length then mret (0, map_length)
  else
    '(read_bytes, v) ← decode_int s offset 0;
    mret (read_bytes, Some (size_t v)).

Definition cbor_deserialize_indefinite_array (s : ptr) (offset : Z) : res Z :=
  st ← deref s; b ← rd st offset;
  if negb (b =? Z.lor CBOR_ARRAY CBOR_VAR_FOLLOWS) then mret 0 else mret 1.

Definition cbor_deserialize_indefinite_map (s : ptr) (offset : Z) : res Z :=
  st ← deref s; b ← rd st offset;
  if negb (b =? Z.lor CBOR_MAP CBOR_VAR_FOLLOWS) then mret 0 else mret 1.

(** ** Float deserializers *)

(** The value of a [float] or [double] as [decode_float_half] computes it:
    [FFin neg m k] is [(-1)^neg * m * 2^k] (the result of [ldexp(m, k)],
    exact here, negated when [neg]); [FInf neg] is the signed infinity and
    [FNaN] a NaN. *)
Inductive fvalue : Type :=
| FFin (neg : bool) (m k : Z)
| FInf (neg : bool)
| FNaN.

(** [decode_float_half(halfp)] on the two bytes [halfp[0]], [halfp[1]]. *)
Definition decode_float_half (h0 h1 : Z) : fvalue :=
  let half := Z.shiftl h0 8 + h1 in
  let exp := Z.land (Z.shiftr half 10) 0x1f in
  let mant := Z.land half 0x3ff in
  let neg := negb (Z.land half 0x8000 =? 0) in
  if exp =? 0 then FFin neg mant (-24)
  else if negb (exp =? 31) then FFin neg (mant + 1024) (exp - 25)
  else if mant =? 0 then FInf neg else FNaN.

(** [n] bytes of [st] from index [i] on, read most significant first: the
    value [NTOHL] (resp. [ntohll]) gives for the [uint32_t] (resp.
    [uint64_t]) loaded from there, i.e. the bit pattern of the [float]
    (resp. [double]) that [ntohf] (resp. [ntohd]) returns. *)
Fixpoint load_be (st : cbor_stream_t) (i : Z) (n : nat) (acc : Z) : res Z :=
  match n with
  | O => mret acc
  | S n' => b ← rd st i; load_be st (i + 1) n' (acc * 256 + b)
  end.

(** [cbor_deserialize_float_half]; the [(float)] cast of the [double] is
    exact for the values of [decode_float_half]. *)
Definition cbor_deserialize_float_half (stream : ptr) (offset : Z) (val : option fvalue)
    : res (Z * option fvalue) :=
  t ← CBOR_TYPE stream offset;
  if negb (t =? CBOR_7) || is_null val then mret (0, val)
  else
    st ← deref stream;
    b ← rd st offset;
    if b =? CBOR_FLOAT16 then
      h0 ← rd st (offset + 1); h1 ← rd st (offset + 2);
      mret (3, Some (decode_float_half h0 h1))
    else mret (0, val).

Definition cbor_deserialize_float (stream : ptr) (offset : Z) (val : option Z)
    : res (Z * option Z) :=
  t ← CBOR_TYPE stream offset;
  if negb (t =? CBOR_7) || is_null val then mret (0, val)
  else
    st ← deref stream;
    b ← rd st offset;
    if b =? CBOR_FLOAT32 then
      x ← load_be st (offset + 1) 4 0; mret (4, Some x)
    else mret (0, val).

Definition cbor_deserialize_double (stream : ptr) (offset : Z) (val : option Z)
    : res (Z * option Z) :=
  t ← CBOR_TYPE stream offset;
  if negb (t =? CBOR_7) || is_null val then mret (0, val)
  else
    st ← deref stream;
    b ← rd st offset;
    if b =? CBOR_FLOAT64 then
      x ← load_be st (offset + 1) 8 0; mret (9, Some x)
    else mret (0, val).

(** ** Date and time as seconds since the epoch (the [BOARD_NATIVE] build;
    [time_t] is a 64-bit signed integer there) *)

Definition CBOR_DATETIME_STRING_FOLLOWS := 0.
Definition CBOR_DATETIME_EPOCH_FOLLOWS := 1.

(** The local [uint64_t epoch] is uninitialised; it is only used once
    [cbor_deserialize_uint64_t] has read something, and so written it.
    [*val] is stored without a null test. *)
Definition cbor_deserialize_date_time_epoch (stream : ptr) (offset : Z) (val : option Z)
    : res (Z * option Z) :=
  t ← CBOR_TYPE stream offset;
  if negb (t =? CBOR_TAG) then mret (0, val)
  else
    ai ← CBOR_ADDITIONAL_INFO stream offset;
    if negb (ai =? CBOR_DATETIME_EPOCH_FOLLOWS) then mret (0, val)
    else
      let offset := size_t (offset + 1) in
      '(read_bytes, epoch) ← cbor_deserialize_uint64_t stream offset (Some 0);
      if read_bytes =? 0 then mret (0, val)
      else
        _ ← deref val;
        mret (size_t (read_bytes + 1), Some (to_int64 (default 0 epoch))).

Definition cbor_serialize_date_time_epoch (stream : ptr) (val : Z) : res (Z * ptr) :=
  CBOR_ENSURE_SIZE stream 2 (
    if val <? 0 then mret (0, stream)
    else
      '(t, s1) ← cbor_write_tag stream CBOR_DATETIME_EPOCH_FOLLOWS;
      if t =? 0 then mret (0, s1)
      else
        '(written_bytes, s2) ← encode_int CBOR_UINT s1 (u64 val);
        mret (size_t (written_bytes + 1), s2)).

(** ** The printers *)

Definition CBOR_STREAM_PRINT_BUFFERSIZE : nat := 1024.

(** [dump_memory(data, size)]: the bytes it prints ([None] is the null
    pointer). *)
Definition dump_memory (bytes : option (list Z)) (sz : Z) : res (list Z) :=
  match bytes with
  | None => mret []
  | Some l => if sz =? 0 then mret [] else read_bytes l 0 sz
  end.

Definition cbor_stream_print (stream : ptr) : res (list Z) :=
  st ← deref stream; dump_memory (Some (data st)) (pos st).

(** A computation run with a bound on its recursion: [None] when the bound
    is reached before the C code returns. *)
Definition wbind {A B} (m : option (res A)) (k : A -> option (res B)) : option (res B) :=
  match m with
  | None => None
  | Some Fault => Some Fault
  | Some (Ok a) => k a
  end.

(** [cbor_stream_decode_at(stream, offset, indent)] in the build without
    [BOARD_NATIVE]: its return value, the number of bytes consumed; what it
    prints and [indent] are left out.  The out-parameters of the
    deserializers it calls are uninitialised locals, non-null; their initial
    content does not affect the count (0 and a zero buffer here).  The loops
    over the items of an array or a map are [array_loop] and [map_loop]. *)
Fixpoint cbor_stream_decode_at (fuel : nat) (stream : ptr) (offset : Z) : option (res Z) :=
  match fuel with
  | O => None
  | S fuel' =>
    let finish (offset read_bytes : Z) : option (res Z) :=
      Some (ab ← cbor_at_break stream offset;
            mret (size_t (read_bytes + (if (ab : bool) then 1 else 0)))) in
    let fix array_loop (n : nat) (is_indefinite : bool) (array_length i offset read_bytes : Z)
        : option (res Z) :=
      match n with
      | O => None
      | S n' =>
        wbind (if is_indefinite then Some (ab ← cbor_at_break stream offset; mret (negb ab))
               else Some (mret (i <? array_length)))
          (fun (go : bool) =>
             if go then
               wbind (cbor_stream_decode_at fuel' stream offset) (fun (inner_read_bytes : Z) =>
                 let offset := size_t (offset + inner_read_bytes) in
                 if inner_read_bytes =? 0 then finish offset read_bytes
                 else array_loop n' is_indefinite array_length (size_t (i + 1)) offset
                        (size_t (read_bytes + inner_read_bytes)))
             else finish offset read_bytes)
      end in
    let fix map_loop (n : nat) (is_indefinite : bool) (map_len i offset read_bytes : Z)
        : option (res Z) :=
      match n with
      | O => None
      | S n' =>
        wbind (if is_indefinite then Some (ab ← cbor_at_break stream offset; mret (negb ab))
               else Some (mret (i <? map_len)))
          (fun (go : bool) =>
             if go then
               wbind (cbor_stream_decode_at fuel' stream offset) (fun (key_read_bytes : Z) =>
                 let offset := size_t (offset + key_read_bytes) in
                 wbind (cbor_stream_decode_at fuel' stream offset) (fun (value_read_bytes : Z) =>
                   let offset := size_t (offset + value_read_bytes) in
                   if (key_read_bytes =? 0) || (value_read_bytes =? 0) then
                     finish offset read_bytes
                   else map_loop n' is_indefinite map_len (size_t (i + 1)) offset
                          (size_t (read_bytes + (size_t (key_read_bytes + value_read_bytes))))))
             else finish offset read_bytes)
      end in
    wbind (Some (CBOR_TYPE stream offset)) (fun (t : Z) =>
      if t =? CBOR_UINT then
        Some ('(read_bytes, _) ← cbor_deserialize_int stream offset (Some 0); mret read_bytes)
      else if t =? CBOR_BYTES then
        Some ('(read_bytes, _) ← cbor_deserialize_byte_string stream offset
                (Some (repeat 0 CBOR_STREAM_PRINT_BUFFERSIZE))
                (Z.of_nat CBOR_STREAM_PRINT_BUFFERSIZE);
              mret read_bytes)
      else if t =? CBOR_TEXT then
        Some ('(read_bytes, _) ← cbor_deserialize_unicode_string stream offset
                (Some (repeat 0 CBOR_STREAM_PRINT_BUFFERSIZE))
                (Z.of_nat CBOR_STREAM_PRINT_BUFFERSIZE);
              mret read_bytes)
      else if t =? CBOR_ARRAY then
        wbind (Some (st ← deref stream; b ← rd st offset;
                     mret (b =? Z.lor CBOR_ARRAY CBOR_VAR_FOLLOWS)))
          (fun (is_indefinite : bool) =>
             if is_indefinite then
               wbind (Some (cbor_deserialize_indefinite_array stream offset)) (fun (read_bytes : Z) =>
                 array_loop fuel' true 0 0 (size_t (offset + read_bytes)) read_bytes)
             else
               wbind (Some (decode_int stream offset 0)) (fun '((read_bytes, array_length) : Z * Z) =>
                 array_loop fuel' false array_length 0 (size_t (offset + read_bytes)) read_bytes))
      else if t =? CBOR_MAP then
        wbind (Some (st ← deref stream; b ← rd st offset;
                     mret (b =? Z.lor CBOR_MAP CBOR_VAR_FOLLOWS)))
          (fun (is_indefinite : bool) =>
             if is_indefinite then
               wbind (Some (cbor_deserialize_indefinite_map stream offset)) (fun (read_bytes : Z) =>
                 map_loop fuel' true 0 0 (size_t (offset + read_bytes)) read_bytes)
             else
               wbind (Some (decode_int stream offset 0)) (fun '((read_bytes, map_len) : Z * Z) =>
                 map_loop fuel' false map_len 0 (size_t (offset + read_bytes)) read_bytes))
      else if t =? CBOR_TAG then
        Some (_ ← CBOR_ADDITIONAL_INFO stream offset; mret 1)
      else if t =? CBOR_7 then
        Some (st ← deref stream; b ← rd st offset;
              if (b =? CBOR_FALSE) || (b =? CBOR_TRUE) then
                '(read_bytes, _) ← cbor_deserialize_bool stream offset (Some false);
                mret read_bytes
              else if b =? CBOR_FLOAT16 then
                '(read_bytes, _) ← cbor_deserialize_float_half stream offset (Some (FFin false 0 0));
                mret read_bytes
              else if b =? CBOR_FLOAT32 then
                '(read_bytes, _) ← cbor_deserialize_float stream offset (Some 0);
                mret read_bytes
              else if b =? CBOR_FLOAT64 then
                '(read_bytes, _) ← cbor_deserialize_double stream offset (Some 0);
                mret read_bytes
              else mret 0)
      else Some (mret 0))
  end.

(** [cbor_stream_decode(stream)]: the offset at which it reports a failure
    ([Some offset], after printing [stream->data[offset]] and the stream), or
    [None] when it reaches [stream->pos]. *)
Fixpoint stream_decode_loop (fuel : nat) (st : cbor_stream_t) (offset : Z)
    : option (res (option Z)) :=
  match fuel with
  | O => None
  | S fuel' =>
    if offset <? pos st then
      wbind (cbor_stream_decode_at fuel' (Some st) offset) (fun (read_bytes : Z) =>
        if read_bytes =? 0 then
          Some (_ ← rd st offset; _ ← cbor_stream_print (Some st); mret (Some offset))
        else stream_decode_loop fuel' st (size_t (offset + read_bytes)))
    else Some (mret None)
  end.

Definition cbor_stream_decode (fuel : nat) (stream : ptr) : option (res (option Z)) :=
  match stream with
  | None => Some Fault
  | Some st => stream_decode_loop fuel st 0
  end.

(** ** Scenarios of the spec, evaluated *)

Example serialize_int_24 :
  cbor_serialize_int (Some (empty_stream 8)) 24
  = Ok (2, Some (mk_stream [0x18; 0x18; 0; 0; 0; 0; 0; 0] 8 2)).
Proof. reflexivity. Qed.

Example roundtrip_neg :
  (s' ← cbor_serialize_int (Some (empty_stream 8)) (-0x7fffffff - 1);
   cbor_deserialize_int (snd s') 0 (Some 0)) = Ok (5, Some (-0x7fffffff - 1)).
Proof. reflexivity. Qed.

Example serialize_map_scenario :
  (s1 ← cbor_serialize_map (Some (empty_stream 8)) 2;
   s2 ← cbor_serialize_int (snd s1) 1;
   s3 ← cbor_serialize_byte_string (snd s2) [0x31; 0];
   s4 ← cbor_serialize_int (snd s3) 2;
   s5 ← cbor_serialize_byte_string (snd s4) [0x32; 0];
   mret (snd s5))
  = Ok (Some (mk_stream [0xA2; 0x01; 0x41; 0x31; 0x02; 0x41; 0x32; 0] 8 7)).
Proof. reflexivity. Qed.

Example float_scenarios :
  cbor_serialize_float_half (Some (empty_stream 4)) 0x3FC00000
  = Ok (3, Some (mk_stream [0xF9; 0x3E; 0x00; 0] 4 3)) /\
  cbor_serialize_float (Some (empty_stream 6)) 0x47C35000
  = Ok (5, Some (mk_stream [0xFA; 0x47; 0xC3; 0x50; 0x00; 0] 6 5)).
Proof. split; reflexivity. Qed.

(** ** Lemmas on the model *)

Lemma push_ok (l : list Z) (sz : Z) (n : nat) (b : Z) :
  (n < length l)%nat -> Z.of_nat (S n) < 2 ^ 64 ->
  push (Some (mk_stream l sz (Z.of_nat n))) b
  = Ok (Some (mk_stream (<[n := Z.land b 0xFF]> l) sz (Z.of_nat (S n)))).
Proof.
  intros Hn Hw. unfold push. cbn [deref mbind res_bind pos data size].
  rewrite Nat2Z.id.
  destruct (0 <=? Z.of_nat n) eqn:E0; [| apply Z.leb_gt in E0; lia].
  destruct (n <? length l)%nat eqn:E1; [| apply Nat.ltb_ge in E1; lia].
  cbn. unfold size_t. rewrite Z.mod_small by lia. do 3 f_equal. lia.
Qed.

Lemma length_list_write l i bs : length (list_write l i bs) = length l.
Proof.
  revert l i. induction bs as [| b bs IH]; intros l i; simpl; [done |].
  rewrite IH. apply length_insert.
Qed.

Lemma list_write_lookup_lt l i bs j :
  (j < i)%nat -> list_write l i bs !! j = l !! j.
Proof.
  revert l i. induction bs as [| b bs IH]; intros l i Hj; simpl; [done |].
  rewrite IH by lia. apply list_lookup_insert_ne. lia.
Qed.

Lemma list_write_lookup_in l i bs k b :
  (i + length bs <= length l)%nat -> bs !! k = Some b ->
  list_write l i bs !! (i + k)%nat = Some (Z.land b 0xFF).
Proof.
  revert l i k. induction bs as [| b0 bs IH]; intros l i k Hlen Hk; [done |].
  simpl in *. destruct k as [| k].
  - cbn in Hk. injection Hk as <-. rewrite list_write_lookup_lt by lia.
    rewrite Nat.add_0_r. apply list_lookup_insert_eq. lia.
  - replace (i + S k)%nat with (S i + k)%nat by lia. apply IH; [| done].
    rewrite length_insert. lia.
Qed.


Ltac ensure_passes :=
  unfold CBOR_ENSURE_SIZE; cbn [deref mbind res_bind pos data size];
  unfold size_t; rewrite Z.mod_small by lia;
  match goal with
  | |- context [?a >=? ?b] =>
      destruct (a >=? b) eqn:Ege; [apply Z.geb_le in Ege; lia |]
  end.

Ltac push_all :=
  repeat (rewrite push_ok by (rewrite ?length_insert; lia);
          cbn [mbind res_bind]).

(** [encode_int] on a non-null stream with room for the head: it stores
    [head_bytes] at the cursor and advances the cursor by their number. *)
Lemma encode_int_spec (m : Z) (st : cbor_stream_t) (val : Z) :
  stream_wf st -> 0 <= val ->
  pos st + Z.of_nat (length (head_bytes m val)) < size st ->
  encode_int m (Some st) val
  = Ok (Z.of_nat (length (head_bytes m val)),
        Some (mk_stream (list_write (data st) (Z.to_nat (pos st)) (head_bytes m val))
                        (size st) (pos st + Z.of_nat (length (head_bytes m val))))).
Proof.
  destruct st as [l sz p]. unfold stream_wf. cbn [pos size data].
  intros (Hp & Hsz & Hmax) Hv Hroom.
  assert (Hn : p = Z.of_nat (Z.to_nat p)) by lia.
  remember (Z.to_nat p) as n eqn:En. subst p. clear En.
  unfold encode_int, head_bytes in *.
  destruct (val <=? 23); [| destruct (val <=? 0xff);
    [| destruct (val <=? 0xffff); [| destruct (val <=? 0xffffffff)]]];
  cbn [length Z.of_nat Pos.of_succ_nat] in *; ensure_passes; push_all;
  cbn [list_write]; do 4 f_equal; lia.
Qed.

Lemma geb_false (a b : Z) : (a >=? b) = false -> a < b.
Proof. rewrite Z.geb_leb. apply Z.leb_gt. Qed.

Lemma length_head_bytes (m val : Z) :
  Z.of_nat (length (head_bytes m val)) = spec_min_width val.
Proof.
  unfold head_bytes, spec_min_width.
  destruct (val <=? 23); [| destruct (val <=? 0xff);
    [| destruct (val <=? 0xffff); [| destruct (val <=? 0xffffffff)]]]; reflexivity.
Qed.

(** Without room for the head, [encode_int] stores nothing and returns 0. *)
Lemma encode_int_full (m : Z) (st : cbor_stream_t) (val : Z) :
  pos st + spec_min_width val < 2 ^ 64 -> 0 <= pos st ->
  size st <= pos st + spec_min_width val ->
  encode_int m (Some st) val = Ok (0, Some st).
Proof.
  intros Hw Hp Hfull. unfold encode_int, spec_min_width in *.
  destruct (val <=? 23); [| destruct (val <=? 0xff);
    [| destruct (val <=? 0xffff); [| destruct (val <=? 0xffffffff)]]];
  unfold CBOR_ENSURE_SIZE; cbn [deref mbind res_bind]; unfold size_t;
  rewrite Z.mod_small by lia;
  (destruct (_ >=? _) eqn:E; [reflexivity | apply geb_false in E; lia]).
Qed.

(** The initial byte [major_type | x] as stored: its top three bits give
    back the major type and its low five bits give back [x]. *)
Lemma initial_byte_fields (m x : Z) :
  In m majors -> 0 <= x < 32 ->
  Z.land (Z.land (Z.lor m x) 0xFF) CBOR_TYPE_MASK = m /\
  Z.land (Z.land (Z.lor m x) 0xFF) CBOR_INFO_MASK = x.
Proof.
  intros Hm Hx.
  assert (Hall : forallb (fun m => forallb (fun k =>
            (Z.land (Z.land (Z.lor m (Z.of_nat k)) 0xFF) CBOR_TYPE_MASK =? m) &&
            (Z.land (Z.land (Z.lor m (Z.of_nat k)) 0xFF) CBOR_INFO_MASK =? Z.of_nat k))
            (seq 0 32)) majors = true) by reflexivity.
  rewrite forallb_forall in Hall. specialize (Hall m Hm).
  rewrite forallb_forall in Hall. specialize (Hall (Z.to_nat x)).
  rewrite Z2Nat.id in Hall by lia.
  assert (Hin : In (Z.to_nat x) (seq 0 32)) by (apply in_seq; lia).
  specialize (Hall Hin). apply andb_prop in Hall as [H1 H2].
  split; apply Z.eqb_eq; assumption.
Qed.

Lemma lor_add_low (x y k : Z) :
  0 <= k -> 0 <= y < 2 ^ k -> x mod 2 ^ k = 0 -> Z.lor x y = x + y.
Proof.
  intros Hk Hy Hx.
  assert (Hl : Z.land x y = 0).
  { apply Z.bits_inj'. intros i Hi. rewrite Z.land_spec, Z.bits_0.
    destruct (Z.lt_ge_cases i k).
    - rewrite <- (Z.mod_pow2_bits_low x k i) by lia. rewrite Hx, Z.bits_0. reflexivity.
    - rewrite <- (Z.mod_small y (2 ^ k)) by lia.
      rewrite Z.mod_pow2_bits_high by lia. apply Bool.andb_false_r. }
  rewrite (Z.add_nocarry_lxor x y Hl). symmetry. apply Z.lxor_lor. exact Hl.
Qed.

Lemma stored_byte (v k : Z) :
  0 <= k -> Z.land (Z.land (Z.shiftr v k) 0xff) 0xFF = (v / 2 ^ k) mod 256.
Proof.
  intros Hk. rewrite Z.shiftr_div_pow2 by lia. change 0xff with (Z.ones 8).
  rewrite !Z.land_ones by lia. rewrite Z.mod_mod by lia. reflexivity.
Qed.

Lemma stored_low_byte (v : Z) : Z.land (Z.land v 0xff) 0xFF = v mod 256.
Proof.
  rewrite <- (Z.shiftr_0_r v) at 1. rewrite stored_byte by lia.
  rewrite Z.pow_0_r, Z.div_1_r. reflexivity.
Qed.

Lemma be_decode_2 (v : Z) : 0 <= v < 2 ^ 16 ->
  Z.lor (Z.shiftl ((v / 2 ^ 8) mod 256) 8) (v mod 256) = v.
Proof.
  intros Hv. rewrite Z.shiftl_mul_pow2 by lia.
  rewrite (lor_add_low _ _ 8) by (try rewrite Z.mod_mul; try lia;
    pose proof (Z.mod_pos_bound v 256); lia).
  Z.div_mod_to_equations. lia.
Qed.

Lemma be_decode_4 (v : Z) : 0 <= v < 2 ^ 32 ->
  Z.lor (Z.lor (Z.lor (Z.shiftl ((v / 2 ^ 24) mod 256) 24)
          (Z.shiftl ((v / 2 ^ 16) mod 256) 16)) (Z.shiftl ((v / 2 ^ 8) mod 256) 8))
        (v mod 256) = v.
Proof.
  intros Hv. rewrite !Z.shiftl_mul_pow2 by lia.
  set (b3 := (v / 2 ^ 24) mod 256). set (b2 := (v / 2 ^ 16) mod 256).
  set (b1 := (v / 2 ^ 8) mod 256). set (b0 := v mod 256).
  assert (0 <= b3 < 256 /\ 0 <= b2 < 256 /\ 0 <= b1 < 256 /\ 0 <= b0 < 256)
    as (? & ? & ? & ?) by (subst b3 b2 b1 b0; repeat split;
                           apply Z.mod_pos_bound; lia).
  rewrite (lor_add_low (b3 * 2 ^ 24) (b2 * 2 ^ 16) 24)
    by (try rewrite Z.mod_mul; lia).
  rewrite (lor_add_low (b3 * 2 ^ 24 + b2 * 2 ^ 16) (b1 * 2 ^ 8) 16).
  2, 3: lia.
  2: { replace (b3 * 2 ^ 24 + b2 * 2 ^ 16) with ((b3 * 2 ^ 8 + b2) * 2 ^ 16) by ring.
       apply Z.mod_mul. lia. }
  rewrite (lor_add_low _ b0 8).
  2, 3: lia.
  2: { replace (b3 * 2 ^ 24 + b2 * 2 ^ 16 + b1 * 2 ^ 8)
         with ((b3 * 2 ^ 16 + b2 * 2 ^ 8 + b1) * 2 ^ 8) by ring.
       apply Z.mod_mul. lia. }
  subst b3 b2 b1 b0. Z.div_mod_to_equations. lia.
Qed.

Lemma to_int32_u64 (x : Z) : -2 ^ 31 <= x < 2 ^ 31 -> to_int32 (u64 x) = x.
Proof.
  intros Hx. unfold to_int32, u64.
  assert (Hm : (x mod 2 ^ 64) mod 2 ^ 32 = x mod 2 ^ 32)
    by (Z.div_mod_to_equations; lia).
  rewrite Hm.
  destruct (x mod 2 ^ 32 >=? 2 ^ 31) eqn:E;
    [apply Z.geb_le in E | apply geb_false in E];
    Z.div_mod_to_equations; lia.
Qed.

Lemma list_write_lookup0 l bs k b :
  (length bs <= length l)%nat -> bs !! k = Some b ->
  list_write l 0 bs !! k = Some (Z.land b 0xFF).
Proof. intros H1 H2. apply (list_write_lookup_in l 0 bs k b); [lia | done]. Qed.

Ltac rd_written :=
  repeat (erewrite list_write_lookup0 by (first [reflexivity | cbn [length] in *; lia])).

Ltac nonneg_guards :=
  repeat match goal with
  | |- context [0 <=? ?a] =>
      let E := fresh in
      assert (E : (0 <=? a) = true) by (apply Z.leb_le; lia); rewrite E; clear E
  end; cbn [mbind res_bind mret res_ret].

(** Reading back a head written at offset 0 (arguments below [2 ^ 32]). *)
Lemma decode_head0 (m u : Z) (l : list Z) (sz p x : Z) :
  In m majors -> 0 <= u < 2 ^ 32 -> (length (head_bytes m u) <= length l)%nat ->
  let st := mk_stream (list_write l 0 (head_bytes m u)) sz p in
  CBOR_TYPE (Some st) 0 = Ok m /\
  decode_int (Some st) 0 x = Ok (spec_min_width u, u).
Proof.
  intros Hm Hu Hlen st. subst st.
  unfold CBOR_TYPE, decode_int, rd, spec_min_width. cbn [deref mbind res_bind data].
  revert Hlen. unfold head_bytes.
  destruct (u <=? 23) eqn:E1; [| destruct (u <=? 0xff) eqn:E2;
    [| destruct (u <=? 0xffff) eqn:E3; [| destruct (u <=? 0xffffffff) eqn:E4]]];
  intros Hlen; rd_written; cbn [mbind res_bind Z.leb Z.compare];
  unfold CBOR_UINT8_FOLLOWS, CBOR_UINT16_FOLLOWS, CBOR_UINT32_FOLLOWS.
  - assert (H1 : u <= 23) by (apply Z.leb_le; exact E1).
    destruct (initial_byte_fields m u Hm ltac:(lia)) as [-> ->].
    rewrite E1. split; reflexivity.
  - apply Z.leb_gt in E1. apply Z.leb_le in E2.
    destruct (initial_byte_fields m 24 Hm ltac:(lia)) as [-> ->].
    cbn. rewrite stored_low_byte, Z.mod_small by lia. split; reflexivity.
  - apply Z.leb_gt in E2. apply Z.leb_le in E3.
    destruct (initial_byte_fields m 25 Hm ltac:(lia)) as [-> ->].
    cbn. rewrite stored_byte, stored_low_byte by lia.
    nonneg_guards. rewrite be_decode_2 by lia. split; reflexivity.
  - apply Z.leb_gt in E3. apply Z.leb_le in E4.
    destruct (initial_byte_fields m 26 Hm ltac:(lia)) as [-> ->].
    cbn. rewrite !stored_byte, stored_low_byte by lia.
    nonneg_guards. rewrite be_decode_4 by lia. split; reflexivity.
  - apply Z.leb_gt in E4. lia.
Qed.

(** [encode_int] on a well-formed stream either stores its head or, when the
    head does not fit, nothing. *)
Lemma encode_int_cases (m : Z) (st : cbor_stream_t) (val : Z) :
  stream_wf st -> 0 <= val -> pos st + 9 < 2 ^ 64 ->
  (pos st + spec_min_width val < size st /\
   encode_int m (Some st) val
   = Ok (spec_min_width val,
         Some (mk_stream (list_write (data st) (Z.to_nat (pos st)) (head_bytes m val))
                         (size st) (pos st + spec_min_width val)))) \/
  (size st <= pos st + spec_min_width val /\ encode_int m (Some st) val = Ok (0, Some st)).
Proof.
  intros Hwf Hv Hmax.
  assert (Hw : 1 <= spec_min_width val <= 9)
    by (unfold spec_min_width; repeat case_match; lia).
  destruct (Z_lt_ge_dec (pos st + spec_min_width val) (size st)) as [Hroom | Hfull].
  - left. split; [exact Hroom |].
    rewrite encode_int_spec by (rewrite ?length_head_bytes; assumption || lia).
    rewrite length_head_bytes. reflexivity.
  - right. split; [lia |]. apply encode_int_full; unfold stream_wf in Hwf; lia.
Qed.

(** ** C3: round trip of [cbor_serialize_int] and [cbor_deserialize_int] *)

(** C3: for every C [int] [v], serializing [v] with [cbor_serialize_int]
    into an empty stream (cursor 0) with room for it, and deserializing at
    offset 0 with [cbor_deserialize_int], gives back [v], and the number of
    bytes read equals the number of bytes written. *)
Theorem cbor_int_roundtrip (st : cbor_stream_t) (v o k : Z) (s' : ptr) :
  stream_wf st -> pos st = 0 -> -2 ^ 31 <= v < 2 ^ 31 ->
  cbor_serialize_int (Some st) v = Ok (k, s') -> k <> 0 ->
  cbor_deserialize_int s' 0 (Some o) = Ok (k, Some v).
Proof.
  intros Hwf Hp0 Hv Hser Hk.
  assert (Hsz := Hwf). destruct Hsz as (_ & Hlen & _).
  unfold cbor_serialize_int in Hser.
  destruct (v >=? 0) eqn:Ev.
  - apply Z.geb_le in Ev.
    assert (Hu : u64 v = v) by (unfold u64; apply Z.mod_small; lia).
    rewrite Hu in Hser.
    destruct (encode_int_cases CBOR_UINT st v Hwf ltac:(lia) ltac:(lia))
      as [[Hroom He] | [_ He]]; rewrite He in Hser; injection Hser as <- <-;
      [| congruence].
    replace (Z.to_nat (pos st)) with 0%nat by lia.
    assert (Hl : (length (head_bytes CBOR_UINT v) <= length (data st))%nat)
      by (pose proof (length_head_bytes CBOR_UINT v); lia).
    destruct (decode_head0 CBOR_UINT v (data st) (size st) (pos st + spec_min_width v) 0
                ltac:(cbv; tauto) ltac:(lia) Hl) as [HT HD].
    unfold cbor_deserialize_int. rewrite HT. cbn [mbind res_bind].
    rewrite HD. cbn [mbind res_bind].
    unfold CBOR_UINT at 2. rewrite Z.eqb_refl.
    f_equal. f_equal. f_equal. rewrite <- Hu at 1. apply to_int32_u64. lia.
  - apply geb_false in Ev.
    set (u := u64 (-1 - v)) in Hser.
    assert (Hu : u = -1 - v) by (unfold u, u64; apply Z.mod_small; lia).
    rewrite Hu in Hser.
    destruct (encode_int_cases CBOR_NEGINT st (-1 - v) Hwf ltac:(lia) ltac:(lia))
      as [[Hroom He] | [_ He]]; rewrite He in Hser; injection Hser as <- <-;
      [| congruence].
    replace (Z.to_nat (pos st)) with 0%nat by lia.
    assert (Hl : (length (head_bytes CBOR_NEGINT (-1 - v)) <= length (data st))%nat)
      by (pose proof (length_head_bytes CBOR_NEGINT (-1 - v)); lia).
    destruct (decode_head0 CBOR_NEGINT (-1 - v) (data st) (size st)
                (pos st + spec_min_width (-1 - v)) 0
                ltac:(cbv; tauto) ltac:(lia) Hl) as [HT HD].
    unfold cbor_deserialize_int. rewrite HT. cbn [mbind res_bind].
    rewrite HD. cbn [mbind res_bind].
    f_equal. f_equal. f_equal.
    replace (-1 - (-1 - v)) with v by ring. apply to_int32_u64. lia.
Qed.

Lemma cbor_int_roundtrip_witness :
  cbor_deserialize_int (Some (mk_stream [0x38; 0x18; 0; 0; 0; 0; 0; 0] 8 2)) 0 (Some 0)
  = Ok (2, Some (-25)).
Proof.
  apply (cbor_int_roundtrip (empty_stream 8) (-25) 0 2).
  - unfold stream_wf; cbn; lia.
  - reflexivity.
  - lia.
  - reflexivity.
  - lia.
Defined.

(** ** C4: the minimum-width law of the head encoder *)

(** C4: for every unsigned 64-bit argument [N] that [encode_int] writes into
    a stream with room for it, the number of bytes written (and the cursor
    advance) is 1 if [N <= 23], 2 if [N <= 0xFF], 3 if [N <= 0xFFFF], 5 if
    [N <= 0xFFFFFFFF] and 9 otherwise; and at the boundary values 0, 23, 24,
    255, 256, 65535, 65536, 2^32-1, 2^32 and 2^64-1 the counts are
    1, 1, 2, 2, 3, 3, 5, 5, 9, 9. *)
Theorem encode_int_min_width (m : Z) (st : cbor_stream_t) (N : Z) :
  stream_wf st -> 0 <= N < 2 ^ 64 -> pos st + spec_min_width N < size st ->
  (exists st', encode_int m (Some st) N = Ok (spec_min_width N, Some st') /\
               pos st' = pos st + spec_min_width N) /\
  map (fun v => count_of (encode_int CBOR_UINT (Some (empty_stream 16)) v))
      [0; 23; 24; 255; 256; 65535; 65536; 2 ^ 32 - 1; 2 ^ 32; 2 ^ 64 - 1]
  = [1; 1; 2; 2; 3; 3; 5; 5; 9; 9].
Proof.
  intros Hwf HN Hroom. split; [| reflexivity].
  eexists. split.
  - rewrite encode_int_spec by (rewrite ?length_head_bytes; assumption || lia).
    rewrite length_head_bytes. reflexivity.
  - reflexivity.
Qed.

Lemma encode_int_min_width_witness :
  (exists st', encode_int CBOR_UINT (Some (empty_stream 16)) 65536 = Ok (5, Some st') /\
               pos st' = 5) /\
  map (fun v => count_of (encode_int CBOR_UINT (Some (empty_stream 16)) v))
      [0; 23; 24; 255; 256; 65535; 65536; 2 ^ 32 - 1; 2 ^ 32; 2 ^ 64 - 1]
  = [1; 1; 2; 2; 3; 3; 5; 5; 9; 9].
Proof.
  apply (encode_int_min_width CBOR_UINT (empty_stream 16) 65536).
  - unfold stream_wf; cbn; lia.
  - lia.
  - cbn. lia.
Defined.

(** ** C8: [cbor_deserialize_bool] *)

(** C8: [cbor_deserialize_bool] returns 0 (leaving the out cell as it is)
    when the byte at the offset is not of major type 7 or the out-pointer is
    null; otherwise it consumes exactly one byte and stores [true] iff the
    byte is [0xF5]; so [0xF4], [0xF6] (null), [0xF7] (undefined), the float
    heads [0xF9]-[0xFB] and the break [0xFF] all give [false] with 1 byte
    consumed. *)
Theorem deserialize_bool_spec (st : cbor_stream_t) (offset b : Z) (val : option bool) :
  rd st offset = Ok b ->
  (Z.land b CBOR_TYPE_MASK <> CBOR_7 \/ val = None ->
     cbor_deserialize_bool (Some st) offset val = Ok (0, val)) /\
  (Z.land b CBOR_TYPE_MASK = CBOR_7 -> val <> None ->
     cbor_deserialize_bool (Some st) offset val = Ok (1, Some (b =? 0xF5))) /\
  (forall x, In b [0xF4; 0xF6; 0xF7; 0xF9; 0xFA; 0xFB; 0xFF] ->
     cbor_deserialize_bool (Some st) offset (Some x) = Ok (1, Some false)).
Proof.
  intros Hrd.
  assert (Heq : forall v, cbor_deserialize_bool (Some st) offset v =
    if negb (Z.land b CBOR_TYPE_MASK =? CBOR_7) || is_null v then Ok (0, v)
    else Ok (1, Some (b =? CBOR_TRUE))).
  { intros v. unfold cbor_deserialize_bool, CBOR_TYPE. cbn [deref mbind res_bind].
    rewrite Hrd. cbn [mbind res_bind mret res_ret].
    destruct (negb _ || is_null v); reflexivity. }
  split; [| split].
  - intros [Hb | Hv]; rewrite Heq.
    + apply Z.eqb_neq in Hb. rewrite Hb. reflexivity.
    + subst val. rewrite Bool.orb_true_r. reflexivity.
  - intros Hb Hv. rewrite Heq. rewrite Hb, Z.eqb_refl.
    destruct val; [reflexivity | congruence].
  - intros x Hin. rewrite Heq.
    repeat (destruct Hin as [<- | Hin]; [reflexivity |]). destruct Hin.
Qed.

Lemma deserialize_bool_spec_witness :
  (Z.land 0xF6 CBOR_TYPE_MASK <> CBOR_7 \/ Some true = None ->
     cbor_deserialize_bool (Some (mk_stream [0xF6] 1 1)) 0 (Some true) = Ok (0, Some true)) /\
  (Z.land 0xF6 CBOR_TYPE_MASK = CBOR_7 -> Some true <> None ->
     cbor_deserialize_bool (Some (mk_stream [0xF6] 1 1)) 0 (Some true)
     = Ok (1, Some (0xF6 =? 0xF5))) /\
  (forall x, In 0xF6 [0xF4; 0xF6; 0xF7; 0xF9; 0xFA; 0xFB; 0xFF] ->
     cbor_deserialize_bool (Some (mk_stream [0xF6] 1 1)) 0 (Some x) = Ok (1, Some false)).
Proof. apply (deserialize_bool_spec (mk_stream [0xF6] 1 1) 0 0xF6 (Some true)). reflexivity. Defined.

(** ** C9: reserved additional information on the integer deserializers *)

Lemma decode_int_reserved (st : cbor_stream_t) (offset b x : Z) :
  rd st offset = Ok b -> 28 <= Z.land b CBOR_INFO_MASK <= 31 ->
  decode_int (Some st) offset x = Ok (0, 0).
Proof.
  intros Hrd Hai. unfold decode_int. rewrite Hrd. cbn [mbind res_bind].
  unfold CBOR_UINT8_FOLLOWS, CBOR_UINT16_FOLLOWS, CBOR_UINT32_FOLLOWS, CBOR_UINT64_FOLLOWS.
  destruct (Z.land b CBOR_INFO_MASK <=? 23) eqn:E0; [apply Z.leb_le in E0; lia |].
  destruct (Z.land b CBOR_INFO_MASK =? 24) eqn:E1; [apply Z.eqb_eq in E1; lia |].
  destruct (Z.land b CBOR_INFO_MASK =? 25) eqn:E2; [apply Z.eqb_eq in E2; lia |].
  destruct (Z.land b CBOR_INFO_MASK =? 26) eqn:E3; [apply Z.eqb_eq in E3; lia |].
  destruct (Z.land b CBOR_INFO_MASK =? 27) eqn:E4; [apply Z.eqb_eq in E4; lia |].
  reflexivity.
Qed.

(** C9: when the byte at the offset has major type 0 or 1 but additional
    information 28..31, [cbor_deserialize_int] and [cbor_deserialize_int64_t]
    return 0 and still overwrite the out cell, with 0 for major type 0 and
    -1 for major type 1; on a major-type mismatch they return 0 and leave the
    out cell as it was. *)
Theorem deserialize_int_reserved_info (st : cbor_stream_t) (offset b x : Z) :
  rd st offset = Ok b ->
  (In (Z.land b CBOR_TYPE_MASK) [CBOR_UINT; CBOR_NEGINT] ->
   28 <= Z.land b CBOR_INFO_MASK <= 31 ->
   cbor_deserialize_int (Some st) offset (Some x)
     = Ok (0, Some (if Z.land b CBOR_TYPE_MASK =? CBOR_UINT then 0 else -1)) /\
   cbor_deserialize_int64_t (Some st) offset (Some x)
     = Ok (0, Some (if Z.land b CBOR_TYPE_MASK =? CBOR_UINT then 0 else -1))) /\
  (~ In (Z.land b CBOR_TYPE_MASK) [CBOR_UINT; CBOR_NEGINT] ->
   cbor_deserialize_int (Some st) offset (Some x) = Ok (0, Some x) /\
   cbor_deserialize_int64_t (Some st) offset (Some x) = Ok (0, Some x)).
Proof.
  intros Hrd.
  assert (HT : CBOR_TYPE (Some st) offset = Ok (Z.land b CBOR_TYPE_MASK))
    by (unfold CBOR_TYPE; cbn [deref mbind res_bind]; rewrite Hrd; reflexivity).
  split.
  - intros Hin Hai.
    pose proof (decode_int_reserved st offset b 0 Hrd Hai) as HD.
    unfold cbor_deserialize_int, cbor_deserialize_int64_t. rewrite HT.
    cbn [mbind res_bind]. rewrite HD. cbn [mbind res_bind].
    destruct Hin as [<- | [<- | []]]; split; reflexivity.
  - intros Hnin.
    unfold cbor_deserialize_int, cbor_deserialize_int64_t. rewrite HT.
    cbn [mbind res_bind].
    destruct (Z.land b CBOR_TYPE_MASK =? CBOR_UINT) eqn:E0;
      [apply Z.eqb_eq in E0; rewrite E0 in Hnin; cbn in Hnin; tauto |].
    destruct (Z.land b CBOR_TYPE_MASK =? CBOR_NEGINT) eqn:E1;
      [apply Z.eqb_eq in E1; rewrite E1 in Hnin; cbn in Hnin; tauto |].
    split; reflexivity.
Qed.

Lemma deserialize_int_reserved_info_witness :
  (In (Z.land 0x3C CBOR_TYPE_MASK) [CBOR_UINT; CBOR_NEGINT] ->
   28 <= Z.land 0x3C CBOR_INFO_MASK <= 31 ->
   cbor_deserialize_int (Some (mk_stream [0x3C] 1 1)) 0 (Some 7)
     = Ok (0, Some (if Z.land 0x3C CBOR_TYPE_MASK =? CBOR_UINT then 0 else -1)) /\
   cbor_deserialize_int64_t (Some (mk_stream [0x3C] 1 1)) 0 (Some 7)
     = Ok (0, Some (if Z.land 0x3C CBOR_TYPE_MASK =? CBOR_UINT then 0 else -1))) /\
  (~ In (Z.land 0x3C CBOR_TYPE_MASK) [CBOR_UINT; CBOR_NEGINT] ->
   cbor_deserialize_int (Some (mk_stream [0x3C] 1 1)) 0 (Some 7) = Ok (0, Some 7) /\
   cbor_deserialize_int64_t (Some (mk_stream [0x3C] 1 1)) 0 (Some 7) = Ok (0, Some 7)).
Proof. apply (deserialize_int_reserved_info (mk_stream [0x3C] 1 1) 0 0x3C 7). reflexivity. Defined.

Example deserialize_int_reserved_neg :
  cbor_deserialize_int (Some (mk_stream [0x3C] 1 1)) 0 (Some 7) = Ok (0, Some (-1)).
Proof. reflexivity. Qed.

(** ** C10: string serializers measure their input with [strlen] *)

Lemma strlen_first_zero (str : list Z) (n : nat) :
  str !! n = Some 0 -> (forall j, (j < n)%nat -> str !! j <> Some 0) ->
  strlen str = Ok (Z.of_nat n).
Proof.
  revert n. induction str as [| c str IH]; intros n Hn Hbefore; [done |].
  cbn [strlen]. destruct n as [| n].
  - cbn in Hn. injection Hn as ->. reflexivity.
  - destruct (c =? 0) eqn:Ec.
    + apply Z.eqb_eq in Ec. subst c. exfalso. apply (Hbefore 0%nat); [lia | done].
    + rewrite (IH n Hn). 2: { intros j Hj. apply (Hbefore (S j)). lia. }
      cbn. f_equal. lia.
Qed.

Lemma write_at_ok (l : list Z) (i : nat) (src : list Z) :
  (i + length src <= length l)%nat -> write_at l i src = Ok (list_write l i src).
Proof.
  revert l i. induction src as [| b src IH]; intros l i Hlen; [done |].
  cbn [length] in Hlen. cbn [write_at list_write].
  destruct (i <? length l)%nat eqn:E; [| apply Nat.ltb_ge in E; lia].
  apply IH. rewrite length_insert. lia.
Qed.

Lemma list_write_app (l : list Z) (i : nat) (a b : list Z) :
  list_write l i (a ++ b) = list_write (list_write l i a) (i + length a) b.
Proof.
  revert l i. induction a as [| x a IH]; intros l i; cbn; [f_equal; lia |].
  rewrite IH. f_equal. lia.
Qed.

Lemma read_bytes_prefix (str : list Z) (n : nat) :
  (n <= length str)%nat -> read_bytes str 0 (Z.of_nat n) = Ok (take n str).
Proof.
  intros Hn. unfold read_bytes.
  destruct ((0 <=? 0) && (0 <=? Z.of_nat n) && (0 + Z.of_nat n <=? Z.of_nat (length str)))
    eqn:E.
  - rewrite Nat2Z.id. reflexivity.
  - exfalso. apply Bool.andb_false_iff in E as [E | E];
      [apply Bool.andb_false_iff in E as [E | E] |]; apply Z.leb_gt in E; lia.
Qed.

Lemma encode_bytes_spec (m : Z) (st : cbor_stream_t) (str : list Z) (n : nat) :
  stream_wf st -> (n <= length str)%nat ->
  pos st + spec_min_width (Z.of_nat n) + Z.of_nat n < size st ->
  encode_bytes m (Some st) str (Z.of_nat n)
  = Ok (spec_min_width (Z.of_nat n) + Z.of_nat n,
        Some (mk_stream (list_write (data st) (Z.to_nat (pos st))
                           (head_bytes m (Z.of_nat n) ++ take n str))
                        (size st) (pos st + spec_min_width (Z.of_nat n) + Z.of_nat n))).
Proof.
  intros Hwf Hn Hroom.
  assert (Hwf' := Hwf). destruct Hwf' as (Hp & Hlen & Hmax).
  assert (Hw : 1 <= spec_min_width (Z.of_nat n) <= 9)
    by (unfold spec_min_width; repeat case_match; lia).
  unfold encode_bytes.
  assert (Hu : u64 (Z.of_nat n) = Z.of_nat n) by (unfold u64; apply Z.mod_small; lia).
  rewrite Hu.
  rewrite encode_int_spec by (rewrite ?length_head_bytes; assumption || lia).
  rewrite length_head_bytes. cbn [mbind res_bind].
  destruct (spec_min_width (Z.of_nat n) =? 0) eqn:E0; [apply Z.eqb_eq in E0; lia |].
  unfold CBOR_ENSURE_SIZE. cbn [deref mbind res_bind pos size data].
  unfold size_t. rewrite Z.mod_small by lia.
  destruct (_ >=? _) eqn:Ege; [apply Z.geb_le in Ege; lia |].
  rewrite read_bytes_prefix by exact Hn. cbn [mbind res_bind].
  unfold memcpy_stream. cbn [deref mbind res_bind pos size data].
  destruct (0 <=? _) eqn:Ep; [| apply Z.leb_gt in Ep; lia].
  pose proof (length_head_bytes m (Z.of_nat n)) as Hhl.
  rewrite write_at_ok.
  2: { rewrite length_list_write, length_take. lia. }
  unfold advance. cbn [deref mbind res_bind mret res_ret pos size data].
  unfold size_t. rewrite Z.mod_small by lia.
  rewrite list_write_app.
  replace (Z.to_nat (pos st) + length (head_bytes m (Z.of_nat n)))%nat
    with (Z.to_nat (pos st + spec_min_width (Z.of_nat n))) by lia.
  do 3 f_equal.
Qed.

(** C10: [cbor_serialize_byte_string] and [cbor_serialize_unicode_string]
    take the payload length from [strlen]: for every input whose first zero
    byte is at index [n], the item written (on a stream with room for it) is
    the head for length [n] followed by exactly the [n] bytes before that
    zero.  So an embedded zero byte cuts the payload short, and the empty
    string is the single head byte [0x40] (resp. [0x60]). *)
Theorem serialize_string_strlen (st : cbor_stream_t) (str : list Z) (n : nat) :
  stream_wf st ->
  str !! n = Some 0 -> (forall j, (j < n)%nat -> str !! j <> Some 0) ->
  pos st + spec_min_width (Z.of_nat n) + Z.of_nat n < size st ->
  cbor_serialize_byte_string (Some st) str
  = Ok (spec_min_width (Z.of_nat n) + Z.of_nat n,
        Some (mk_stream (list_write (data st) (Z.to_nat (pos st))
                           (head_bytes CBOR_BYTES (Z.of_nat n) ++ take n str))
                        (size st) (pos st + spec_min_width (Z.of_nat n) + Z.of_nat n))) /\
  cbor_serialize_unicode_string (Some st) str
  = Ok (spec_min_width (Z.of_nat n) + Z.of_nat n,
        Some (mk_stream (list_write (data st) (Z.to_nat (pos st))
                           (head_bytes CBOR_TEXT (Z.of_nat n) ++ take n str))
                        (size st) (pos st + spec_min_width (Z.of_nat n) + Z.of_nat n))) /\
  cbor_serialize_byte_string (Some (empty_stream 4)) [0]
  = Ok (1, Some (mk_stream [0x40; 0; 0; 0] 4 1)) /\
  cbor_serialize_unicode_string (Some (empty_stream 4)) [0]
  = Ok (1, Some (mk_stream [0x60; 0; 0; 0] 4 1)) /\
  cbor_serialize_byte_string (Some (empty_stream 8)) [0x61; 0; 0x62; 0]
  = Ok (2, Some (mk_stream [0x41; 0x61; 0; 0; 0; 0; 0; 0] 8 2)).
Proof.
  intros Hwf Hz Hbefore Hroom.
  assert (Hn : (n < length str)%nat) by (apply lookup_lt_Some in Hz; exact Hz).
  pose proof (strlen_first_zero str n Hz Hbefore) as Hlen.
  unfold cbor_serialize_byte_string, cbor_serialize_unicode_string.
  rewrite Hlen. cbn [mbind res_bind].
  rewrite !encode_bytes_spec by (assumption || lia).
  repeat split; reflexivity.
Qed.

Lemma serialize_string_strlen_witness :
  cbor_serialize_byte_string (Some (empty_stream 8)) [0x61; 0; 0x62; 0]
  = Ok (spec_min_width 1 + 1,
        Some (mk_stream (list_write (repeat 0 8) 0 (head_bytes CBOR_BYTES 1 ++ [0x61]))
                        8 (0 + spec_min_width 1 + 1))) /\
  cbor_serialize_unicode_string (Some (empty_stream 8)) [0x61; 0; 0x62; 0]
  = Ok (spec_min_width 1 + 1,
        Some (mk_stream (list_write (repeat 0 8) 0 (head_bytes CBOR_TEXT 1 ++ [0x61]))
                        8 (0 + spec_min_width 1 + 1))) /\
  cbor_serialize_byte_string (Some (empty_stream 4)) [0]
  = Ok (1, Some (mk_stream [0x40; 0; 0; 0] 4 1)) /\
  cbor_serialize_unicode_string (Some (empty_stream 4)) [0]
  = Ok (1, Some (mk_stream [0x60; 0; 0; 0] 4 1)) /\
  cbor_serialize_byte_string (Some (empty_stream 8)) [0x61; 0; 0x62; 0]
  = Ok (2, Some (mk_stream [0x41; 0x61; 0; 0; 0; 0; 0; 0] 8 2)).
Proof.
  apply (serialize_string_strlen (empty_stream 8) [0x61; 0; 0x62; 0] 1).
  - unfold stream_wf; cbn; lia.
  - reflexivity.
  - intros j Hj. assert (j = 0%nat) as -> by lia. discriminate.
  - reflexivity.
Defined.

(** ** Evaluations at failing inputs *)

(** C1: [cbor_serialize_byte_string] on a stream of size 3 at cursor 0 with
    the input "ab": the head [0x42] passes its size check and is stored, the
    payload check [1 + 2 >= 3] then returns 0; the head stays in the buffer
    and the cursor has moved to 1, although the call reports 0 bytes. *)
Theorem serialize_byte_string_partial_write :
  cbor_serialize_byte_string (Some (mk_stream [0; 0; 0] 3 0)) [0x61; 0x62; 0]
  = Ok (0, Some (mk_stream [0x42; 0; 0] 3 1)).
Proof. reflexivity. Qed.

(** C2: [CBOR_ENSURE_SIZE] rejects a write of [n] bytes when exactly [n]
    bytes remain ([pos + n >= size]): a 1-byte stream takes no 1-byte item,
    a 5-byte stream no float, a 9-byte stream no double; each call returns 0
    with the stream unchanged. *)
Theorem ensure_size_rejects_exact_fit :
  cbor_serialize_int (Some (mk_stream [0] 1 0)) 0 = Ok (0, Some (mk_stream [0] 1 0)) /\
  cbor_serialize_bool (Some (mk_stream [0] 1 0)) true = Ok (0, Some (mk_stream [0] 1 0)) /\
  cbor_write_break (Some (mk_stream [0] 1 0)) = Ok (0, Some (mk_stream [0] 1 0)) /\
  cbor_serialize_float (Some (empty_stream 5)) 0x47C35000
  = Ok (0, Some (empty_stream 5)) /\
  cbor_serialize_double (Some (empty_stream 9)) 0x3FF199999999999A
  = Ok (0, Some (empty_stream 9)).
Proof. repeat split. Qed.

(** C5: [decode_bytes] rejects only when [length + 1 < bytes_length].  For
    the byte string "ab" and a destination of size 2 it does not reject: it
    copies both bytes and stores the terminator at [buffer[2]].  With a
    3-byte buffer passed as size 2 the call returns 3; with a real 2-byte
    buffer the terminator store is out of bounds; with "abc" and a 2-byte
    buffer already the copy overflows. *)
Theorem decode_bytes_short_destination :
  cbor_deserialize_byte_string (Some (mk_stream [0x42; 0x61; 0x62] 3 3)) 0
    (Some [0; 0; 0]) 2 = Ok (3, Some [0x61; 0x62; 0]) /\
  cbor_deserialize_byte_string (Some (mk_stream [0x42; 0x61; 0x62] 3 3)) 0
    (Some [0; 0]) 2 = Fault /\
  cbor_deserialize_unicode_string (Some (mk_stream [0x63; 0x61; 0x62; 0x63] 4 4)) 0
    (Some [0; 0]) 2 = Fault.
Proof. repeat split. Qed.

(** C6: on a stream with [pos = 0], [s->pos - 1] wraps to [SIZE_MAX] in
    [size_t], so [cbor_at_end] is false at offset 0, and [cbor_at_break]
    goes on to read the byte there. *)
Theorem at_end_empty_stream :
  cbor_at_end (Some (mk_stream [0; 0; 0; 0] 4 0)) 0 = false /\
  cbor_at_break (Some (mk_stream [0; 0; 0; 0] 4 0)) 0 = Ok false /\
  cbor_at_tag (Some (mk_stream [0; 0; 0; 0] 4 0)) 0 = Ok false.
Proof. repeat split. Qed.

(** C7: only the [encode_int] path tests the stream pointer for null.
    [cbor_serialize_bool] goes through [CBOR_ENSURE_SIZE], which reads
    [s->pos]; [cbor_deserialize_int] and [decode_bytes] read
    [stream->data[offset]] before any null test. *)
Theorem null_stream_dereferenced :
  cbor_serialize_bool None true = Fault /\
  cbor_serialize_float None 0 = Fault /\
  cbor_deserialize_int None 0 (Some 0) = Fault /\
  cbor_deserialize_bool None 0 (Some false) = Fault /\
  cbor_deserialize_byte_string None 0 (Some [0]) 1 = Fault /\
  cbor_serialize_int None 0 = Ok (0, None).
Proof. repeat split. Qed.

(** * Further properties of the codec

    Round trips between the serializers and deserializers, the edge cases of
    the float, date-time and container code, the stream set-up functions,
    and the walker [cbor_stream_decode_at]. *)

Ltac wit_side :=
  first [ reflexivity | (unfold stream_wf; cbn; lia) | (cbn; lia) | (vm_compute; lia)
        | (vm_compute; split; discriminate) ].

Lemma mod_split (v k : Z) : 0 <= k ->
  v mod 2 ^ (k + 8) = ((v / 2 ^ k) mod 256) * 2 ^ k + v mod 2 ^ k.
Proof.
  intros Hk. rewrite Z.pow_add_r by lia.
  assert (HB : 0 < 2 ^ k) by (apply Z.pow_pos_nonneg; lia).
  set (B := 2 ^ k) in *. change (2 ^ 8) with 256.
  pose proof (Z.div_mod v B ltac:(lia)) as H1.
  pose proof (Z.div_mod (v / B) 256 ltac:(lia)) as H2.
  pose proof (Z.mod_pos_bound v B HB) as H3.
  pose proof (Z.mod_pos_bound (v / B) 256 ltac:(lia)) as H4.
  rewrite Z.div_div in H2 by lia.
  symmetry. apply (Z.mod_unique v (B * 256) (v / (B * 256))); [left; split; nia |].
  rewrite H1 at 1. rewrite H2 at 1. ring.
Qed.

Lemma lor_add_shifted (x d k : Z) :
  0 <= k -> 0 <= d < 256 -> x mod 2 ^ (k + 8) = 0 ->
  Z.lor x (d * 2 ^ k) = x + d * 2 ^ k.
Proof.
  intros Hk Hd Hx.
  assert (Hl : Z.land x (d * 2 ^ k) = 0).
  { apply Z.bits_inj'. intros i Hi. rewrite Z.land_spec, Z.bits_0.
    destruct (Z.lt_ge_cases i (k + 8)).
    - rewrite <- (Z.mod_pow2_bits_low x (k + 8) i) by lia. rewrite Hx, Z.bits_0. reflexivity.
    - rewrite Z.mul_pow2_bits by lia.
      rewrite <- (Z.mod_small d (2 ^ 8)) by (change (2 ^ 8) with 256; lia).
      rewrite Z.mod_pow2_bits_high by lia. apply Bool.andb_false_r. }
  rewrite (Z.add_nocarry_lxor x _ Hl). symmetry. apply Z.lxor_lor. exact Hl.
Qed.

Lemma mod0_add (a b m : Z) : 0 < m -> a mod m = 0 -> b mod m = 0 -> (a + b) mod m = 0.
Proof. intros Hm Ha Hb. rewrite Z.add_mod by lia. rewrite Ha, Hb. reflexivity. Qed.

Lemma mod0_mul_pow (d k m : Z) : 0 <= m <= k -> (d * 2 ^ k) mod 2 ^ m = 0.
Proof.
  intros Hm. replace k with ((k - m) + m) by lia. rewrite Z.pow_add_r by lia.
  rewrite Z.mul_assoc. apply Z.mod_mul. apply Z.pow_nonzero; lia.
Qed.

Ltac mod0 :=
  repeat (apply mod0_add; [apply Z.pow_pos_nonneg; lia | |]);
  apply mod0_mul_pow; lia.

Lemma be_decode_8 (v : Z) : 0 <= v < 2 ^ 64 ->
  Z.lor (Z.lor (Z.lor (Z.lor (Z.lor (Z.lor (Z.lor
    (Z.shiftl ((v / 2 ^ 56) mod 256) 56) (Z.shiftl ((v / 2 ^ 48) mod 256) 48))
    (Z.shiftl ((v / 2 ^ 40) mod 256) 40)) (Z.shiftl ((v / 2 ^ 32) mod 256) 32))
    (Z.shiftl ((v / 2 ^ 24) mod 256) 24)) (Z.shiftl ((v / 2 ^ 16) mod 256) 16))
    (Z.shiftl ((v / 2 ^ 8) mod 256) 8)) (v mod 256) = v.
Proof.
  intros Hv. rewrite !Z.shiftl_mul_pow2 by lia.
  set (b7 := (v / 2 ^ 56) mod 256). set (b6 := (v / 2 ^ 48) mod 256).
  set (b5 := (v / 2 ^ 40) mod 256). set (b4 := (v / 2 ^ 32) mod 256).
  set (b3 := (v / 2 ^ 24) mod 256). set (b2 := (v / 2 ^ 16) mod 256).
  set (b1 := (v / 2 ^ 8) mod 256). set (b0 := v mod 256).
  assert (Hb : forall k, 0 <= (v / 2 ^ k) mod 256 < 256)
    by (intros; apply Z.mod_pos_bound; lia).
  assert (0 <= b0 < 256) by (apply Z.mod_pos_bound; lia).
  rewrite (lor_add_shifted _ b6 48) by first [lia | apply Hb | mod0].
  rewrite (lor_add_shifted _ b5 40) by first [lia | apply Hb | mod0].
  rewrite (lor_add_shifted _ b4 32) by first [lia | apply Hb | mod0].
  rewrite (lor_add_shifted _ b3 24) by first [lia | apply Hb | mod0].
  rewrite (lor_add_shifted _ b2 16) by first [lia | apply Hb | mod0].
  rewrite (lor_add_shifted _ b1 8) by first [lia | apply Hb | mod0].
  rewrite (lor_add_low _ b0 8) by first [lia | mod0].
  pose proof (mod_split v 56 ltac:(lia)) as E7. pose proof (mod_split v 48 ltac:(lia)) as E6.
  pose proof (mod_split v 40 ltac:(lia)) as E5. pose proof (mod_split v 32 ltac:(lia)) as E4.
  pose proof (mod_split v 24 ltac:(lia)) as E3. pose proof (mod_split v 16 ltac:(lia)) as E2.
  pose proof (mod_split v 8 ltac:(lia)) as E1.
  change (56 + 8) with 64 in E7. change (48 + 8) with 56 in E6.
  change (40 + 8) with 48 in E5. change (32 + 8) with 40 in E4.
  change (24 + 8) with 32 in E3. change (16 + 8) with 24 in E2.
  change (8 + 8) with 16 in E1. change (v mod 2 ^ 8) with (v mod 256) in E1.
  rewrite Z.mod_small in E7 by lia.
  fold b7 b6 b5 b4 b3 b2 b1 b0 in E7, E6, E5, E4, E3, E2, E1. lia.
Qed.

Lemma rd_list_write (l : list Z) (sz ps p k : Z) (bs : list Z) (b : Z) :
  0 <= p -> 0 <= k -> (Z.to_nat p + length bs <= length l)%nat ->
  bs !! Z.to_nat k = Some b ->
  rd (mk_stream (list_write l (Z.to_nat p) bs) sz ps) (p + k) = Ok (Z.land b 0xFF).
Proof.
  intros Hp Hk Hlen Hb. unfold rd. cbn [data].
  destruct (0 <=? p + k) eqn:E; [| apply Z.leb_gt in E; lia].
  rewrite Z2Nat.inj_add by lia.
  rewrite (list_write_lookup_in l (Z.to_nat p) bs (Z.to_nat k) b Hlen Hb). reflexivity.
Qed.

Lemma rd_list_write_at (l : list Z) (sz ps p : Z) (bs : list Z) (b : Z) :
  0 <= p -> (Z.to_nat p + length bs <= length l)%nat -> bs !! 0%nat = Some b ->
  rd (mk_stream (list_write l (Z.to_nat p) bs) sz ps) p = Ok (Z.land b 0xFF).
Proof.
  intros Hp Hlen Hb. rewrite <- (Z.add_0_r p) at 2.
  apply rd_list_write; [lia | lia | exact Hlen | exact Hb].
Qed.

Ltac rd_at_head :=
  repeat first
    [ erewrite rd_list_write by (first [reflexivity | lia | cbn [length] in *; lia])
    | erewrite rd_list_write_at by (first [reflexivity | lia | cbn [length] in *; lia]) ].

(** Reading back a head [encode_int] stored at index [p]. *)
Lemma decode_head (m u : Z) (l : list Z) (sz ps p x : Z) :
  In m majors -> 0 <= u < 2 ^ 64 -> 0 <= p ->
  (Z.to_nat p + length (head_bytes m u) <= length l)%nat ->
  let st := mk_stream (list_write l (Z.to_nat p) (head_bytes m u)) sz ps in
  CBOR_TYPE (Some st) p = Ok m /\
  decode_int (Some st) p x = Ok (spec_min_width u, u).
Proof.
  intros Hm Hu Hp Hlen st. subst st.
  unfold CBOR_TYPE, decode_int, spec_min_width. cbn [deref mbind res_bind].
  revert Hlen. unfold head_bytes.
  destruct (u <=? 23) eqn:E1; [| destruct (u <=? 0xff) eqn:E2;
    [| destruct (u <=? 0xffff) eqn:E3; [| destruct (u <=? 0xffffffff) eqn:E4]]];
  intros Hlen; rd_at_head; cbn [mbind res_bind];
  unfold CBOR_UINT8_FOLLOWS, CBOR_UINT16_FOLLOWS, CBOR_UINT32_FOLLOWS, CBOR_UINT64_FOLLOWS.
  - assert (H1 : u <= 23) by (apply Z.leb_le; exact E1).
    destruct (initial_byte_fields m u Hm ltac:(lia)) as [-> ->].
    rewrite E1. split; reflexivity.
  - apply Z.leb_gt in E1. apply Z.leb_le in E2.
    destruct (initial_byte_fields m 24 Hm ltac:(lia)) as [-> ->].
    cbn. rewrite stored_low_byte, Z.mod_small by lia. split; reflexivity.
  - apply Z.leb_gt in E2. apply Z.leb_le in E3.
    destruct (initial_byte_fields m 25 Hm ltac:(lia)) as [-> ->].
    cbn. rewrite stored_byte, stored_low_byte by lia.
    rewrite be_decode_2 by lia. split; reflexivity.
  - apply Z.leb_gt in E3. apply Z.leb_le in E4.
    destruct (initial_byte_fields m 26 Hm ltac:(lia)) as [-> ->].
    cbn. rewrite !stored_byte, stored_low_byte by lia.
    rewrite be_decode_4 by lia. split; reflexivity.
  - apply Z.leb_gt in E4.
    destruct (initial_byte_fields m 27 Hm ltac:(lia)) as [-> ->].
    cbn. rewrite !stored_byte, stored_low_byte by lia.
    rewrite be_decode_8 by lia. split; reflexivity.
Qed.

(** [encode_int] followed by [decode_int] at the old cursor. *)
Lemma encode_decode_head (m : Z) (st : cbor_stream_t) (u : Z) :
  In m majors -> stream_wf st -> 0 <= u < 2 ^ 64 -> pos st + spec_min_width u < size st ->
  exists st', encode_int m (Some st) u = Ok (spec_min_width u, Some st') /\
    data st' = list_write (data st) (Z.to_nat (pos st)) (head_bytes m u) /\
    size st' = size st /\ pos st' = pos st + spec_min_width u /\
    CBOR_TYPE (Some st') (pos st) = Ok m /\
    (forall x, decode_int (Some st') (pos st) x = Ok (spec_min_width u, u)).
Proof.
  intros Hm Hwf Hu Hroom.
  assert (Hwf' := Hwf). destruct Hwf' as (Hp & Hlen & Hmax).
  pose proof (length_head_bytes m u) as Hhl.
  rewrite encode_int_spec by (rewrite ?Hhl; assumption || lia).
  rewrite Hhl. eexists. split; [reflexivity |].
  split; [reflexivity |]. split; [reflexivity |]. split; [reflexivity |].
  assert (Hl : (Z.to_nat (pos st) + length (head_bytes m u) <= length (data st))%nat) by lia.
  split.
  - apply (decode_head m u (data st) (size st) (pos st + spec_min_width u) (pos st) 0
             Hm Hu ltac:(lia) Hl).
  - intros x. apply (decode_head m u (data st) (size st) (pos st + spec_min_width u) (pos st) x
             Hm Hu ltac:(lia) Hl).
Qed.

Lemma to_int64_u64 (x : Z) : -2 ^ 63 <= x < 2 ^ 63 -> to_int64 (u64 x) = x.
Proof.
  intros Hx. unfold to_int64, u64. rewrite Z.mod_mod by lia.
  destruct (x mod 2 ^ 64 >=? 2 ^ 63) eqn:E;
    [apply Z.geb_le in E | apply geb_false in E];
    Z.div_mod_to_equations; lia.
Qed.

(** X1: on a well-formed stream with room for the head, [cbor_serialize_uint64_t]
    of any unsigned 64-bit [N] writes [spec_min_width N] bytes, and reading
    them back at the old cursor gives [N] with [cbor_deserialize_uint64_t],
    its 64-bit signed reinterpretation with [cbor_deserialize_int64_t] and
    its 32-bit truncation with [cbor_deserialize_int], each reporting the
    same byte count. *)
Theorem uint64_roundtrip (st : cbor_stream_t) (N o : Z) :
  stream_wf st -> 0 <= N < 2 ^ 64 -> pos st + spec_min_width N < size st ->
  exists s', cbor_serialize_uint64_t (Some st) N = Ok (spec_min_width N, s') /\
    cbor_deserialize_uint64_t s' (pos st) (Some o) = Ok (spec_min_width N, Some N) /\
    cbor_deserialize_int64_t s' (pos st) (Some o) = Ok (spec_min_width N, Some (to_int64 N)) /\
    cbor_deserialize_int s' (pos st) (Some o) = Ok (spec_min_width N, Some (to_int32 N)).
Proof.
  intros Hwf HN Hroom.
  destruct (encode_decode_head CBOR_UINT st N ltac:(cbv; tauto) Hwf HN Hroom)
    as (st' & He & _ & _ & _ & HT & HD).
  exists (Some st'). unfold cbor_serialize_uint64_t. rewrite He. split; [reflexivity |].
  unfold cbor_deserialize_uint64_t, cbor_deserialize_int64_t, cbor_deserialize_int.
  rewrite !HT. cbn [mbind res_bind]. rewrite !HD. cbn [mbind res_bind].
  rewrite ?HT. cbn [mbind res_bind]. repeat split; reflexivity.
Qed.

Lemma uint64_roundtrip_witness :
  exists s', cbor_serialize_uint64_t (Some (empty_stream 16)) 300 = Ok (spec_min_width 300, s') /\
    cbor_deserialize_uint64_t s' (pos (empty_stream 16)) (Some 0) = Ok (spec_min_width 300, Some 300) /\
    cbor_deserialize_int64_t s' (pos (empty_stream 16)) (Some 0) = Ok (spec_min_width 300, Some (to_int64 300)) /\
    cbor_deserialize_int s' (pos (empty_stream 16)) (Some 0) = Ok (spec_min_width 300, Some (to_int32 300)).
Proof.
  apply (uint64_roundtrip (empty_stream 16) 300 0).
  all: wit_side.
Defined.


(** X2: whenever [cbor_serialize_int64_t] writes a signed 64-bit value [v]
    (a non-zero count [k]), [cbor_deserialize_int64_t] at the old cursor
    reads back [v] and reports the same count [k]. *)
Theorem int64_roundtrip (st : cbor_stream_t) (v o k : Z) (s' : ptr) :
  stream_wf st -> pos st + 9 < 2 ^ 64 -> -2 ^ 63 <= v < 2 ^ 63 ->
  cbor_serialize_int64_t (Some st) v = Ok (k, s') -> k <> 0 ->
  cbor_deserialize_int64_t s' (pos st) (Some o) = Ok (k, Some v).
Proof.
  intros Hwf Hmax9 Hv Hser Hk.
  assert (Hwf' := Hwf). destruct Hwf' as (Hp & Hlen & Hmax).
  assert (Hw : forall u, 1 <= spec_min_width u <= 9)
    by (intros; unfold spec_min_width; repeat case_match; lia).
  unfold cbor_serialize_int64_t in Hser.
  destruct (v >=? 0) eqn:Ev.
  - apply Z.geb_le in Ev.
    assert (Hu : u64 v = v) by (unfold u64; apply Z.mod_small; lia). rewrite Hu in Hser.
    destruct (Z_lt_ge_dec (pos st + spec_min_width v) (size st)) as [Hroom | Hfull].
    2: { rewrite encode_int_full in Hser by (pose proof (Hw v); pose proof (Hw (-1 - v)); lia). injection Hser as <- <-. congruence. }
    destruct (encode_decode_head CBOR_UINT st v ltac:(cbv; tauto) Hwf ltac:(lia) Hroom)
      as (st' & He & _ & _ & _ & HT & HD).
    rewrite He in Hser. injection Hser as <- <-.
    unfold cbor_deserialize_int64_t. rewrite HT. cbn [mbind res_bind].
    rewrite HD. cbn [mbind res_bind]. rewrite ?HT. cbn [mbind res_bind].
    unfold CBOR_UINT at 2. rewrite Z.eqb_refl.
    rewrite <- Hu at 2. rewrite to_int64_u64 by lia. reflexivity.
  - apply geb_false in Ev.
    assert (Hu : u64 (-1 - v) = -1 - v) by (unfold u64; apply Z.mod_small; lia).
    rewrite Hu in Hser.
    destruct (Z_lt_ge_dec (pos st + spec_min_width (-1 - v)) (size st)) as [Hroom | Hfull].
    2: { rewrite encode_int_full in Hser by (pose proof (Hw v); pose proof (Hw (-1 - v)); lia). injection Hser as <- <-. congruence. }
    destruct (encode_decode_head CBOR_NEGINT st (-1 - v) ltac:(cbv; tauto) Hwf ltac:(lia) Hroom)
      as (st' & He & _ & _ & _ & HT & HD).
    rewrite He in Hser. injection Hser as <- <-.
    unfold cbor_deserialize_int64_t. rewrite HT. cbn [mbind res_bind].
    rewrite HD. cbn [mbind res_bind]. rewrite ?HT. cbn [mbind res_bind].
    replace (-1 - (-1 - v)) with v by ring. rewrite to_int64_u64 by lia. reflexivity.
Qed.

Lemma int64_roundtrip_witness :
  cbor_deserialize_int64_t (Some (mk_stream ([0x39; 0x01; 0xF3] ++ repeat 0 13) 16 3)) (pos (empty_stream 16)) (Some 0) = Ok (3, Some (-500)).
Proof.
  apply (int64_roundtrip (empty_stream 16) (-500) 0 3 (Some (mk_stream ([0x39; 0x01; 0xF3] ++ repeat 0 13) 16 3))).
  all: wit_side.
Defined.


(** X3: an array head written by [cbor_serialize_array] is read back by
    [cbor_deserialize_array] with the same length and byte count, while
    [cbor_deserialize_map] rejects it (returns 0 and leaves the output
    untouched); symmetrically for a map head. *)
Theorem container_length_roundtrip (st : cbor_stream_t) (n o : Z) :
  stream_wf st -> 0 <= n < 2 ^ 64 -> pos st + spec_min_width n < size st ->
  (exists s', cbor_serialize_array (Some st) n = Ok (spec_min_width n, s') /\
     cbor_deserialize_array s' (pos st) (Some o) = Ok (spec_min_width n, Some n) /\
     cbor_deserialize_map s' (pos st) (Some o) = Ok (0, Some o)) /\
  (exists s', cbor_serialize_map (Some st) n = Ok (spec_min_width n, s') /\
     cbor_deserialize_map s' (pos st) (Some o) = Ok (spec_min_width n, Some n) /\
     cbor_deserialize_array s' (pos st) (Some o) = Ok (0, Some o)).
Proof.
  intros Hwf Hn Hroom.
  assert (Hs : size_t n = n) by (unfold size_t; apply Z.mod_small; lia).
  split.
  - destruct (encode_decode_head CBOR_ARRAY st n ltac:(cbv; tauto) Hwf Hn Hroom)
      as (st' & He & _ & _ & _ & HT & HD).
    exists (Some st'). unfold cbor_serialize_array. rewrite He. split; [reflexivity |].
    unfold cbor_deserialize_array, cbor_deserialize_map. rewrite !HT. cbn [mbind res_bind].
    rewrite HD. cbn [mbind res_bind]. rewrite Hs. split; reflexivity.
  - destruct (encode_decode_head CBOR_MAP st n ltac:(cbv; tauto) Hwf Hn Hroom)
      as (st' & He & _ & _ & _ & HT & HD).
    exists (Some st'). unfold cbor_serialize_map. rewrite He. split; [reflexivity |].
    unfold cbor_deserialize_array, cbor_deserialize_map. rewrite !HT. cbn [mbind res_bind].
    rewrite HD. cbn [mbind res_bind]. rewrite Hs. split; reflexivity.
Qed.

Lemma container_length_roundtrip_witness :
  (exists s', cbor_serialize_array (Some (empty_stream 16)) 1000 = Ok (spec_min_width 1000, s') /\
     cbor_deserialize_array s' (pos (empty_stream 16)) (Some 0) = Ok (spec_min_width 1000, Some 1000) /\
     cbor_deserialize_map s' (pos (empty_stream 16)) (Some 0) = Ok (0, Some 0)) /\
  (exists s', cbor_serialize_map (Some (empty_stream 16)) 1000 = Ok (spec_min_width 1000, s') /\
     cbor_deserialize_map s' (pos (empty_stream 16)) (Some 0) = Ok (spec_min_width 1000, Some 1000) /\
     cbor_deserialize_array s' (pos (empty_stream 16)) (Some 0) = Ok (0, Some 0)).
Proof.
  apply (container_length_roundtrip (empty_stream 16) 1000 0).
  all: wit_side.
Defined.











Lemma push_some (st : cbor_stream_t) (b : Z) :
  0 <= pos st -> pos st < Z.of_nat (length (data st)) -> pos st + 1 < 2 ^ 64 ->
  push (Some st) b
  = Ok (Some (mk_stream (<[Z.to_nat (pos st) := Z.land b 0xFF]> (data st)) (size st) (pos st + 1))).
Proof.
  intros H0 H1 H2. unfold push. cbn [deref mbind res_bind].
  destruct ((0 <=? pos st) && (Z.to_nat (pos st) <? length (data st))%nat) eqn:E.
  - unfold size_t. rewrite Z.mod_small by lia. reflexivity.
  - exfalso. apply Bool.andb_false_iff in E as [E | E];
      [apply Z.leb_gt in E | apply Nat.ltb_ge in E]; lia.
Qed.

(** The serializers that store a type byte [b] and then [memcpy] the bytes
    [bs]. *)
Lemma typed_write (st : cbor_stream_t) (b : Z) (bs : list Z) :
  stream_wf st -> pos st + 1 + Z.of_nat (length bs) < size st ->
  (s1 ← push (Some st) b;
   s2 ← memcpy_stream s1 bs;
   s3 ← advance s2 (Z.of_nat (length bs));
   mret (1 + Z.of_nat (length bs), s3))
  = Ok (1 + Z.of_nat (length bs),
        Some (mk_stream (list_write (data st) (Z.to_nat (pos st)) (b :: bs)) (size st)
                        (pos st + 1 + Z.of_nat (length bs)))).
Proof.
  intros (Hp & Hlen & Hmax) Hroom.
  rewrite push_some by lia. cbn [mbind res_bind].
  unfold memcpy_stream. cbn [deref mbind res_bind pos data size].
  destruct (0 <=? pos st + 1) eqn:E; [| apply Z.leb_gt in E; lia].
  rewrite write_at_ok by (rewrite length_insert; lia).
  unfold advance. cbn [deref mbind res_bind mret res_ret pos data size].
  unfold size_t. rewrite Z.mod_small by lia.
  replace (Z.to_nat (pos st + 1)) with (S (Z.to_nat (pos st))) by lia.
  reflexivity.
Qed.

Lemma length_be_bytes (n : nat) (x : Z) : length (be_bytes n x) = n.
Proof. induction n; cbn; congruence. Qed.

Lemma load_be_written (l : list Z) (sz ps : Z) (i n : nat) (x acc : Z) :
  (i + n <= length l)%nat ->
  load_be (mk_stream (list_write l i (be_bytes n x)) sz ps) (Z.of_nat i) n acc
  = Ok (acc * 2 ^ (8 * Z.of_nat n) + x mod 2 ^ (8 * Z.of_nat n)).
Proof.
  revert l i acc. induction n as [| n IH]; intros l i acc Hlen.
  - cbn [load_be mret res_ret Z.of_nat]. rewrite Z.mul_0_r, Z.pow_0_r, Z.mod_1_r. f_equal; ring.
  - cbn [be_bytes list_write load_be].
    unfold rd at 1. cbn [data].
    destruct (0 <=? Z.of_nat i) eqn:E; [| apply Z.leb_gt in E; lia].
    rewrite Nat2Z.id. rewrite list_write_lookup_lt by lia.
    rewrite list_lookup_insert_eq by lia. cbn [mbind res_bind].
    replace (Z.of_nat i + 1) with (Z.of_nat (S i)) by lia.
    rewrite IH by (rewrite length_insert; lia).
    rewrite stored_byte by lia. f_equal.
    pose proof (mod_split x (8 * Z.of_nat n) ltac:(lia)) as Hs.
    replace (8 * Z.of_nat (S n)) with (8 * Z.of_nat n + 8) by lia.
    rewrite Hs. rewrite Z.pow_add_r by lia. ring.
Qed.

Lemma cbor_serialize_float_eq (st : cbor_stream_t) (x : Z) :
  stream_wf st -> pos st + 5 < size st ->
  cbor_serialize_float (Some st) x
  = Ok (5, Some (mk_stream (list_write (data st) (Z.to_nat (pos st)) (CBOR_FLOAT32 :: be_bytes 4 x))
                           (size st) (pos st + 5))).
Proof.
  intros Hwf Hroom. assert (Hwf' := Hwf). destruct Hwf' as (Hp & Hlen & Hmax).
  unfold cbor_serialize_float, CBOR_ENSURE_SIZE. cbn [deref mbind res_bind].
  unfold size_t at 1. rewrite Z.mod_small by lia.
  destruct (_ >=? _) eqn:Ege; [apply Z.geb_le in Ege; lia |].
  pose proof (typed_write st CBOR_FLOAT32 (be_bytes 4 x) Hwf) as Hw.
  rewrite length_be_bytes in Hw. change (Z.of_nat 4) with 4 in Hw.
  replace (pos st + 1 + 4) with (pos st + 5) in Hw by lia. change (1 + 4) with 5 in Hw.
  apply Hw. lia.
Qed.

Lemma cbor_serialize_double_eq (st : cbor_stream_t) (x : Z) :
  stream_wf st -> pos st + 9 < size st ->
  cbor_serialize_double (Some st) x
  = Ok (9, Some (mk_stream (list_write (data st) (Z.to_nat (pos st)) (CBOR_FLOAT64 :: be_bytes 8 x))
                           (size st) (pos st + 9))).
Proof.
  intros Hwf Hroom. assert (Hwf' := Hwf). destruct Hwf' as (Hp & Hlen & Hmax).
  unfold cbor_serialize_double, CBOR_ENSURE_SIZE. cbn [deref mbind res_bind].
  unfold size_t at 1. rewrite Z.mod_small by lia.
  destruct (_ >=? _) eqn:Ege; [apply Z.geb_le in Ege; lia |].
  pose proof (typed_write st CBOR_FLOAT64 (be_bytes 8 x) Hwf) as Hw.
  rewrite length_be_bytes in Hw. change (Z.of_nat 8) with 8 in Hw.
  replace (pos st + 1 + 8) with (pos st + 9) in Hw by lia. change (1 + 8) with 9 in Hw.
  apply Hw. lia.
Qed.

Lemma cbor_serialize_float_half_eq (st : cbor_stream_t) (x : Z) :
  stream_wf st -> pos st + 3 < size st ->
  cbor_serialize_float_half (Some st) x
  = Ok (3, Some (mk_stream (list_write (data st) (Z.to_nat (pos st))
                              (CBOR_FLOAT16 :: be_bytes 2 (encode_float_half x)))
                           (size st) (pos st + 3))).
Proof.
  intros Hwf Hroom. assert (Hwf' := Hwf). destruct Hwf' as (Hp & Hlen & Hmax).
  unfold cbor_serialize_float_half, CBOR_ENSURE_SIZE. cbn [deref mbind res_bind].
  unfold size_t at 1. rewrite Z.mod_small by lia.
  destruct (_ >=? _) eqn:Ege; [apply Z.geb_le in Ege; lia |].
  pose proof (typed_write st CBOR_FLOAT16 (be_bytes 2 (encode_float_half x)) Hwf) as Hw.
  rewrite length_be_bytes in Hw. change (Z.of_nat 2) with 2 in Hw.
  replace (pos st + 1 + 2) with (pos st + 3) in Hw by lia. change (1 + 2) with 3 in Hw.
  apply Hw. lia.
Qed.

(** Reads of a type byte [b] followed by [bs], stored at the cursor [p]. *)
Lemma typed_read (l : list Z) (sz ps p : Z) (b : Z) (bs : list Z) :
  0 <= p -> (Z.to_nat p + S (length bs) <= length l)%nat ->
  let st := mk_stream (list_write l (Z.to_nat p) (b :: bs)) sz ps in
  rd st p = Ok (Z.land b 0xFF) /\
  CBOR_TYPE (Some st) p = Ok (Z.land (Z.land b 0xFF) CBOR_TYPE_MASK) /\
  st = mk_stream (list_write (<[Z.to_nat p := Z.land b 0xFF]> l) (Z.to_nat (p + 1)) bs) sz ps.
Proof.
  intros Hp Hlen st.
  assert (Hr : rd st p = Ok (Z.land b 0xFF)).
  { subst st. apply rd_list_write_at; [lia | cbn [length]; lia | reflexivity]. }
  split; [exact Hr |]. split.
  - unfold CBOR_TYPE. cbn [deref mbind res_bind]. rewrite Hr. reflexivity.
  - subst st. cbn [list_write]. do 2 f_equal. lia.
Qed.

(** X5: [cbor_serialize_float] of a 32-bit pattern [x] reports 5 bytes, and
    [cbor_deserialize_float] at the old cursor gives back [x] but reports only
    4 bytes; [cbor_deserialize_double] rejects the item with 0. *)
Theorem float_bits_roundtrip (st : cbor_stream_t) (x o : Z) :
  stream_wf st -> pos st + 5 < size st -> 0 <= x < 2 ^ 32 ->
  exists s', cbor_serialize_float (Some st) x = Ok (5, s') /\
    cbor_deserialize_float s' (pos st) (Some o) = Ok (4, Some x) /\
    cbor_deserialize_double s' (pos st) (Some o) = Ok (0, Some o).
Proof.
  intros Hwf Hroom Hx. assert (Hwf' := Hwf). destruct Hwf' as (Hp & Hlen & Hmax).
  rewrite (cbor_serialize_float_eq st x Hwf Hroom). eexists; split; [reflexivity |].
  destruct (typed_read (data st) (size st) (pos st + 5) (pos st) CBOR_FLOAT32 (be_bytes 4 x))
    as (Hr & Ht & Heq); [lia | rewrite length_be_bytes; lia |].
  unfold cbor_deserialize_float, cbor_deserialize_double.
  rewrite Ht. change (Z.land (Z.land CBOR_FLOAT32 0xFF) CBOR_TYPE_MASK =? CBOR_7) with true.
  cbn [negb orb is_null deref mbind res_bind]. rewrite Hr.
  change (Z.land CBOR_FLOAT32 0xFF =? CBOR_FLOAT32) with true.
  change (Z.land CBOR_FLOAT32 0xFF =? CBOR_FLOAT64) with false.
  split; [| reflexivity].
  rewrite Heq. assert (Hi : pos st + 1 = Z.of_nat (Z.to_nat (pos st + 1))) by lia.
  set (i := Z.to_nat (pos st + 1)) in *. rewrite Hi.
  rewrite load_be_written by (rewrite length_insert; lia).
  cbn [mbind res_bind]. rewrite Z.mod_small by (cbn; lia). reflexivity.
Qed.

Lemma float_bits_roundtrip_witness :
  exists s', cbor_serialize_float (Some (empty_stream 16)) 0x3fc00000 = Ok (5, s') /\
    cbor_deserialize_float s' (pos (empty_stream 16)) (Some 0) = Ok (4, Some 0x3fc00000) /\
    cbor_deserialize_double s' (pos (empty_stream 16)) (Some 0) = Ok (0, Some 0).
Proof.
  apply (float_bits_roundtrip (empty_stream 16) 0x3fc00000 0).
  all: wit_side.
Defined.


(** X6: [cbor_serialize_double] of a 64-bit pattern [x] writes 9 bytes, and
    [cbor_deserialize_double] gives back [x] with 9 bytes; [cbor_deserialize_float]
    rejects the item with 0. *)
Theorem double_bits_roundtrip (st : cbor_stream_t) (x o : Z) :
  stream_wf st -> pos st + 9 < size st -> 0 <= x < 2 ^ 64 ->
  exists s', cbor_serialize_double (Some st) x = Ok (9, s') /\
    cbor_deserialize_double s' (pos st) (Some o) = Ok (9, Some x) /\
    cbor_deserialize_float s' (pos st) (Some o) = Ok (0, Some o).
Proof.
  intros Hwf Hroom Hx. assert (Hwf' := Hwf). destruct Hwf' as (Hp & Hlen & Hmax).
  rewrite (cbor_serialize_double_eq st x Hwf Hroom). eexists; split; [reflexivity |].
  destruct (typed_read (data st) (size st) (pos st + 9) (pos st) CBOR_FLOAT64 (be_bytes 8 x))
    as (Hr & Ht & Heq); [lia | rewrite length_be_bytes; lia |].
  unfold cbor_deserialize_float, cbor_deserialize_double.
  rewrite Ht. change (Z.land (Z.land CBOR_FLOAT64 0xFF) CBOR_TYPE_MASK =? CBOR_7) with true.
  cbn [negb orb is_null deref mbind res_bind]. rewrite Hr.
  change (Z.land CBOR_FLOAT64 0xFF =? CBOR_FLOAT64) with true.
  change (Z.land CBOR_FLOAT64 0xFF =? CBOR_FLOAT32) with false.
  split; [| reflexivity].
  rewrite Heq. assert (Hi : pos st + 1 = Z.of_nat (Z.to_nat (pos st + 1))) by lia.
  set (i := Z.to_nat (pos st + 1)) in *. rewrite Hi.
  rewrite load_be_written by (rewrite length_insert; lia).
  cbn [mbind res_bind]. rewrite Z.mod_small by (cbn; lia). reflexivity.
Qed.

Lemma double_bits_roundtrip_witness :
  exists s', cbor_serialize_double (Some (empty_stream 16)) 0x3ff8000000000000 = Ok (9, s') /\
    cbor_deserialize_double s' (pos (empty_stream 16)) (Some 0) = Ok (9, Some 0x3ff8000000000000) /\
    cbor_deserialize_float s' (pos (empty_stream 16)) (Some 0) = Ok (0, Some 0).
Proof.
  apply (double_bits_roundtrip (empty_stream 16) 0x3ff8000000000000 0).
  all: wit_side.
Defined.


Lemma float_half_read (st : cbor_stream_t) (x : Z) (o : fvalue) :
  stream_wf st -> pos st + 3 < size st ->
  let h := encode_float_half x in
  exists s', cbor_serialize_float_half (Some st) x = Ok (3, s') /\
    cbor_deserialize_float_half s' (pos st) (Some o)
    = Ok (3, Some (decode_float_half ((h / 2 ^ 8) mod 256) (h mod 256))).
Proof.
  intros Hwf Hroom h. assert (Hwf' := Hwf). destruct Hwf' as (Hp & Hlen & Hmax).
  rewrite (cbor_serialize_float_half_eq st x Hwf Hroom). eexists; split; [reflexivity |].
  fold h.
  destruct (typed_read (data st) (size st) (pos st + 3) (pos st) CBOR_FLOAT16 (be_bytes 2 h))
    as (Hr & Ht & _); [lia | rewrite length_be_bytes; lia |].
  unfold cbor_deserialize_float_half.
  rewrite Ht. change (Z.land (Z.land CBOR_FLOAT16 0xFF) CBOR_TYPE_MASK =? CBOR_7) with true.
  cbn [negb orb is_null deref mbind res_bind]. rewrite Hr.
  change (Z.land CBOR_FLOAT16 0xFF =? CBOR_FLOAT16) with true.
  rewrite (rd_list_write (data st) (size st) (pos st + 3) (pos st) 1
             (CBOR_FLOAT16 :: be_bytes 2 h) (Z.land (Z.shiftr h 8) 0xff));
    [| lia | lia | cbn [length be_bytes]; lia | reflexivity].
  rewrite (rd_list_write (data st) (size st) (pos st + 3) (pos st) 2
             (CBOR_FLOAT16 :: be_bytes 2 h) (Z.land (Z.shiftr h 0) 0xff));
    [| lia | lia | cbn [length be_bytes]; lia | reflexivity].
  cbn [mbind res_bind mret res_ret].
  rewrite !stored_byte by lia. rewrite Z.pow_0_r, Z.div_1_r. reflexivity.
Qed.

Lemma land_pow2 (a n : Z) : 0 <= n ->
  Z.land a (2 ^ n) = if Z.testbit a n then 2 ^ n else 0.
Proof.
  intros Hn. apply Z.bits_inj'. intros j Hj.
  rewrite Z.land_spec, Z.pow2_bits_eqb by lia.
  destruct (Z.testbit a n) eqn:E.
  - rewrite Z.pow2_bits_eqb by lia. destruct (Z.eqb_spec n j); subst; [rewrite E; reflexivity | apply andb_false_r].
  - rewrite Z.bits_0. destruct (Z.eqb_spec n j); subst; [rewrite E; reflexivity | apply andb_false_r].
Qed.

Lemma half_sign (i : Z) :
  Z.land (Z.shiftr i 16) 0x8000 = if Z.testbit i 31 then 0x8000 else 0.
Proof.
  change 0x8000 with (2 ^ 15). rewrite land_pow2 by lia.
  rewrite Z.shiftr_spec by lia. reflexivity.
Qed.

(** X7: [cbor_serialize_float_half] always writes 3 bytes for a 32-bit float
    pattern [x]. When the single-precision exponent is below 103 the half
    read back is a signed zero; when it is above 142 the half read back is
    NaN if [x] is a NaN and an infinity of the sign of [x] otherwise. *)
Theorem float_half_special (st : cbor_stream_t) (x : Z) (o : fvalue) :
  stream_wf st -> pos st + 3 < size st ->
  let e := Z.land (Z.shiftr x 23) 0xff in
  let f := Z.land x 0x7fffff in
  let sgn := Z.testbit x 31 in
  exists s', cbor_serialize_float_half (Some st) x = Ok (3, s') /\
    (e < 103 -> cbor_deserialize_float_half s' (pos st) (Some o) = Ok (3, Some (FFin sgn 0 (-24)))) /\
    (142 < e -> cbor_deserialize_float_half s' (pos st) (Some o)
                = Ok (3, Some (if (e =? 255) && negb (f =? 0) then FNaN else FInf sgn))).
Proof.
  intros Hwf Hroom e f sgn.
  destruct (float_half_read st x o Hwf Hroom) as (s' & Hs & Hd).
  exists s'. split; [exact Hs |]. rewrite Hd. unfold encode_float_half. cbv zeta.
  fold e. fold f. rewrite half_sign. fold sgn.
  split; intros He.
  - rewrite (proj2 (Z.ltb_lt e 103) He). destruct sgn; reflexivity.
  - rewrite (proj2 (Z.ltb_ge e 103)) by lia. rewrite (proj2 (Z.gtb_lt e 142) He).
    destruct ((e =? 255) && negb (f =? 0)), sgn; reflexivity.
Qed.

Lemma float_half_special_witness :
  let e := Z.land (Z.shiftr 0x7f800000 23) 0xff in
  let f := Z.land 0x7f800000 0x7fffff in
  let sgn := Z.testbit 0x7f800000 31 in
  exists s', cbor_serialize_float_half (Some (empty_stream 8)) 0x7f800000 = Ok (3, s') /\
    (e < 103 -> cbor_deserialize_float_half s' (pos (empty_stream 8)) (Some FNaN) = Ok (3, Some (FFin sgn 0 (-24)))) /\
    (142 < e -> cbor_deserialize_float_half s' (pos (empty_stream 8)) (Some FNaN)
                = Ok (3, Some (if (e =? 255) && negb (f =? 0) then FNaN else FInf sgn))).
Proof.
  apply (float_half_special (empty_stream 8) 0x7f800000 FNaN).
  all: wit_side.
Defined.


Lemma land_low (a n : Z) : 0 <= n -> Z.land a (Z.ones n) = a mod 2 ^ n.
Proof. intros. apply Z.land_ones. lia. Qed.

(** X8: for a 32-bit float pattern [x] whose exponent lies in the half-precision
    normal range (113 to 142) and whose low 13 mantissa bits are zero, the
    half written by [cbor_serialize_float_half] decodes to mantissa
    [f / 2^13 + 1024] and exponent [e - 137], which is exactly the value of [x]. *)
Theorem float_half_normal (st : cbor_stream_t) (x : Z) (o : fvalue) :
  stream_wf st -> pos st + 3 < size st -> 0 <= x ->
  let e := Z.land (Z.shiftr x 23) 0xff in
  let f := Z.land x 0x7fffff in
  let sgn := Z.testbit x 31 in
  113 <= e <= 142 -> Z.land x 0x1fff = 0 ->
  exists s', cbor_serialize_float_half (Some st) x = Ok (3, s') /\
    cbor_deserialize_float_half s' (pos st) (Some o)
    = Ok (3, Some (FFin sgn (f / 2 ^ 13 + 1024) (e - 137))) /\
    (f / 2 ^ 13 + 1024) * 2 ^ 13 = 2 ^ 23 + f.
Proof.
  intros Hwf Hroom Hx0 e f sgn He Hlow.
  destruct (float_half_read st x o Hwf Hroom) as (s' & Hs & Hd).
  exists s'. split; [exact Hs |].
  assert (Hm : Z.land (Z.shiftr x 12) 0x07ff = (x / 4096) mod 2048).
  { rewrite Z.shiftr_div_pow2 by lia. change 0x07ff with (Z.ones 11).
    rewrite land_low by lia. reflexivity. }
  assert (Hf : f = x mod 8388608).
  { unfold f. change 0x7fffff with (Z.ones 23). rewrite land_low by lia. reflexivity. }
  assert (Hx : x mod 8192 = 0).
  { change 0x1fff with (Z.ones 13) in Hlow. rewrite land_low in Hlow by lia. exact Hlow. }
  set (m := Z.land (Z.shiftr x 12) 0x07ff) in *.
  assert (Hm2 : m mod 2 = 0 /\ m / 2 = f / 8192 /\ 0 <= f / 8192 < 1024).
  { rewrite Hm, Hf. clear -Hx0 Hx. Z.div_mod_to_equations. lia. }
  destruct Hm2 as (Hm0 & Hmf & Hfb).
  change (2 ^ 13) with 8192. change (2 ^ 23) with 8388608.
  split; [| clear -Hf Hx Hx0; subst f; Z.div_mod_to_equations; lia].
  rewrite Hd. unfold encode_float_half. cbv zeta.
  fold e. fold m. rewrite half_sign. fold sgn.
  destruct (e <? 103) eqn:E1; [apply Z.ltb_lt in E1; lia |].
  destruct (e >? 142) eqn:E2; [apply Z.gtb_lt in E2; lia |].
  destruct (e <? 113) eqn:E3; [apply Z.ltb_lt in E3; lia |].
  rewrite (Z.shiftr_div_pow2 m 1), (Z.shiftl_mul_pow2 (e - 112) 10) by lia.
  assert (Hl1 : Z.land m 1 = m mod 2)
    by (change 1 with (Z.ones 1); rewrite land_low by lia; reflexivity).
  rewrite Hl1.
  change (2 ^ 1) with 2. change (2 ^ 10) with 1024. rewrite Hm0, Hmf.
  rewrite (lor_add_low ((e - 112) * 1024) (f / 8192) 10) by
    (try lia; change (2 ^ 10) with 1024; rewrite Z.mod_mul; lia).
  assert (Hh : Z.lor (if sgn then 0x8000 else 0) ((e - 112) * 1024 + f / 8192)
               = (if sgn then 32768 else 0) + ((e - 112) * 1024 + f / 8192)).
  { destruct sgn; [| reflexivity].
    apply (lor_add_low _ _ 15); [lia | change (2 ^ 15) with 32768; lia | reflexivity]. }
  rewrite Hh. clear Hh.
  set (h := (if sgn then 32768 else 0) + ((e - 112) * 1024 + f / 8192)).
  assert (Hhb : 0 <= h < 2 ^ 16) by (unfold h; destruct sgn; cbn; lia).
  unfold u16. rewrite Z.add_0_r. rewrite !(Z.mod_small h (2 ^ 16)) by exact Hhb.
  unfold decode_float_half. cbv zeta.
  rewrite Z.shiftl_mul_pow2, Z.shiftr_div_pow2 by lia.
  change 0x1f with (Z.ones 5). change 0x3ff with (Z.ones 10).
  rewrite !land_low by lia. change (Z.ones 5) with 31.
  change 0x8000 with (2 ^ 15). rewrite land_pow2 by lia.
  change (2 ^ 8) with 256. change (2 ^ 10) with 1024. change (2 ^ 5) with 32.
  assert (Hhalf : h / 256 mod 256 * 256 + h mod 256 = h).
  { change (2 ^ 16) with 65536 in Hhb. clear -Hhb. Z.div_mod_to_equations. lia. }
  rewrite Hhalf.
  assert (Hexp : (h / 1024) mod 32 = e - 112 /\ h mod 1024 = f / 8192).
  { unfold h. destruct sgn; Z.div_mod_to_equations; lia. }
  destruct Hexp as (-> & ->).
  assert (Hsg : Z.testbit h 15 = sgn).
  { destruct sgn.
    - apply Z.testbit_true; [lia |]. change (2 ^ 15) with 32768. unfold h.
      Z.div_mod_to_equations; lia.
    - apply Z.testbit_false; [lia |]. change (2 ^ 15) with 32768. unfold h.
      Z.div_mod_to_equations; lia. }
  rewrite Hsg.
  destruct (e - 112 =? 0) eqn:E4; [apply Z.eqb_eq in E4; lia |].
  destruct (e - 112 =? 31) eqn:E5; [apply Z.eqb_eq in E5; lia |].
  cbn [negb]. replace (e - 112 - 25) with (e - 137) by lia.
  destruct sgn; reflexivity.
Qed.

Lemma float_half_normal_witness :
  let e := Z.land (Z.shiftr 0x3fc00000 23) 0xff in
  let f := Z.land 0x3fc00000 0x7fffff in
  let sgn := Z.testbit 0x3fc00000 31 in
  exists s', cbor_serialize_float_half (Some (empty_stream 8)) 0x3fc00000 = Ok (3, s') /\
    cbor_deserialize_float_half s' (pos (empty_stream 8)) (Some FNaN)
    = Ok (3, Some (FFin sgn (f / 2 ^ 13 + 1024) (e - 137))) /\
    (f / 2 ^ 13 + 1024) * 2 ^ 13 = 2 ^ 23 + f.
Proof.
  apply (float_half_normal (empty_stream 8) 0x3fc00000 FNaN).
  all: wit_side.
Defined.


Lemma rd_insert (l : list Z) (sz ps p v : Z) :
  0 <= p -> (Z.to_nat p < length l)%nat ->
  rd (mk_stream (<[Z.to_nat p := v]> l) sz ps) p = Ok v.
Proof.
  intros Hp Hl. unfold rd. cbn [data].
  destruct (0 <=? p) eqn:E; [| apply Z.leb_gt in E; lia].
  rewrite list_lookup_insert_eq by lia. reflexivity.
Qed.

Lemma cbor_single_byte_eq (st : cbor_stream_t) (b : Z) :
  stream_wf st -> pos st + 1 < size st ->
  CBOR_ENSURE_SIZE (Some st) 1 (s1 ← push (Some st) b; mret (1, s1))
  = Ok (1, Some (mk_stream (<[Z.to_nat (pos st) := Z.land b 0xFF]> (data st)) (size st) (pos st + 1))).
Proof.
  intros (Hp & Hlen & Hmax) Hroom. unfold CBOR_ENSURE_SIZE. cbn [deref mbind res_bind].
  unfold size_t at 1. rewrite Z.mod_small by lia.
  destruct (_ >=? _) eqn:Ege; [apply Z.geb_le in Ege; lia |].
  rewrite push_some by lia. reflexivity.
Qed.

(** X9: the markers written by [cbor_serialize_indefinite_array] and
    [cbor_serialize_indefinite_map] take one byte each; each is recognised by
    its own [cbor_deserialize_indefinite_*] and refused by the other, and the
    definite [cbor_deserialize_array] / [cbor_deserialize_map] read it as a
    length of 0 while returning a count of 0. *)
Theorem indefinite_marker_roundtrip (st : cbor_stream_t) (n : Z) :
  stream_wf st -> pos st + 1 < size st ->
  exists sa sm,
    cbor_serialize_indefinite_array (Some st) = Ok (1, sa) /\
    cbor_serialize_indefinite_map (Some st) = Ok (1, sm) /\
    cbor_deserialize_indefinite_array sa (pos st) = Ok 1 /\
    cbor_deserialize_indefinite_map sa (pos st) = Ok 0 /\
    cbor_deserialize_array sa (pos st) (Some n) = Ok (0, Some 0) /\
    cbor_deserialize_indefinite_map sm (pos st) = Ok 1 /\
    cbor_deserialize_indefinite_array sm (pos st) = Ok 0 /\
    cbor_deserialize_map sm (pos st) (Some n) = Ok (0, Some 0).
Proof.
  intros Hwf Hroom. assert (Hwf' := Hwf). destruct Hwf' as (Hp & Hlen & Hmax).
  unfold cbor_serialize_indefinite_array, cbor_serialize_indefinite_map.
  rewrite !cbor_single_byte_eq by assumption.
  do 2 eexists. split; [reflexivity |]. split; [reflexivity |].
  unfold cbor_deserialize_indefinite_array, cbor_deserialize_indefinite_map,
    cbor_deserialize_array, cbor_deserialize_map, CBOR_TYPE, decode_int.
  cbn [deref mbind res_bind].
  rewrite !rd_insert by lia.
  repeat split; reflexivity.
Qed.

Lemma indefinite_marker_roundtrip_witness :
  exists sa sm,
    cbor_serialize_indefinite_array (Some (empty_stream 4)) = Ok (1, sa) /\
    cbor_serialize_indefinite_map (Some (empty_stream 4)) = Ok (1, sm) /\
    cbor_deserialize_indefinite_array sa (pos (empty_stream 4)) = Ok 1 /\
    cbor_deserialize_indefinite_map sa (pos (empty_stream 4)) = Ok 0 /\
    cbor_deserialize_array sa (pos (empty_stream 4)) (Some 7) = Ok (0, Some 0) /\
    cbor_deserialize_indefinite_map sm (pos (empty_stream 4)) = Ok 1 /\
    cbor_deserialize_indefinite_array sm (pos (empty_stream 4)) = Ok 0 /\
    cbor_deserialize_map sm (pos (empty_stream 4)) (Some 7) = Ok (0, Some 0).
Proof.
  apply (indefinite_marker_roundtrip (empty_stream 4) 7).
  all: wit_side.
Defined.


Lemma encode_int_destroyed (m v : Z) (st : cbor_stream_t) :
  encode_int m (cbor_destroy (Some st)) v = Ok (0, cbor_destroy (Some st)).
Proof.
  unfold encode_int, cbor_destroy, CBOR_ENSURE_SIZE. cbn.
  destruct (v <=? 23); [reflexivity |]. destruct (v <=? 255); [reflexivity |].
  destruct (v <=? 65535); [reflexivity |]. destruct (v <=? 4294967295); reflexivity.
Qed.

Lemma rd_destroyed {A} (st : cbor_stream_t) (i : Z) (k : Z -> res A) :
  (s ← deref (cbor_destroy (Some st)); b ← rd s i; k b) = Fault.
Proof. cbn. unfold rd. cbn. destruct (0 <=? i); reflexivity. Qed.

(** X10: after [cbor_destroy] the stream has size and position 0: every
    serializer writes nothing and returns 0 with the stream unchanged (the
    string serializers still scan their argument with [strlen]), and every
    deserializer faults, since it reads [data[offset]] of the empty buffer. *)
Theorem destroyed_stream_inert (st : cbor_stream_t) (v x n off o : Z) (b : bool)
    (str buf : list Z) (h : fvalue) :
  let s := cbor_destroy (Some st) in
  cbor_serialize_int s v = Ok (0, s) /\
  cbor_serialize_uint64_t s v = Ok (0, s) /\
  cbor_serialize_int64_t s v = Ok (0, s) /\
  cbor_serialize_bool s b = Ok (0, s) /\
  cbor_serialize_float_half s x = Ok (0, s) /\
  cbor_serialize_float s x = Ok (0, s) /\
  cbor_serialize_double s x = Ok (0, s) /\
  cbor_serialize_byte_string s str = (k ← strlen str; mret (0, s)) /\
  cbor_serialize_unicode_string s str = (k ← strlen str; mret (0, s)) /\
  cbor_serialize_array s n = Ok (0, s) /\
  cbor_serialize_map s n = Ok (0, s) /\
  cbor_serialize_indefinite_array s = Ok (0, s) /\
  cbor_serialize_indefinite_map s = Ok (0, s) /\
  cbor_write_tag s v = Ok (0, s) /\
  cbor_write_break s = Ok (0, s) /\
  cbor_serialize_date_time_epoch s v = Ok (0, s) /\
  cbor_deserialize_int s off (Some o) = Fault /\
  cbor_deserialize_uint64_t s off (Some o) = Fault /\
  cbor_deserialize_int64_t s off (Some o) = Fault /\
  cbor_deserialize_bool s off (Some b) = Fault /\
  cbor_deserialize_float_half s off (Some h) = Fault /\
  cbor_deserialize_float s off (Some o) = Fault /\
  cbor_deserialize_double s off (Some o) = Fault /\
  cbor_deserialize_byte_string s off (Some buf) n = Fault /\
  cbor_deserialize_unicode_string s off (Some buf) n = Fault /\
  cbor_deserialize_array s off (Some o) = Fault /\
  cbor_deserialize_map s off (Some o) = Fault /\
  cbor_deserialize_indefinite_array s off = Fault /\
  cbor_deserialize_indefinite_map s off = Fault.
Proof.
  intros s.
  assert (Ht : CBOR_TYPE s off = Fault) by (unfold CBOR_TYPE; apply rd_destroyed).
  assert (Henc : forall m w, encode_int m s w = Ok (0, s)) by (intros; apply encode_int_destroyed).
  assert (Hstr : forall m, (k ← strlen str; encode_bytes m s str k) = (k ← strlen str; mret (0, s))).
  { intros m. destruct (strlen str); [reflexivity |]. cbn [mbind res_bind].
    unfold encode_bytes. rewrite Henc. reflexivity. }
  unfold cbor_serialize_int, cbor_serialize_uint64_t, cbor_serialize_int64_t,
    cbor_serialize_array, cbor_serialize_map, cbor_serialize_byte_string,
    cbor_serialize_unicode_string.
  rewrite !Henc, !Hstr.
  unfold cbor_deserialize_int, cbor_deserialize_uint64_t, cbor_deserialize_int64_t,
    cbor_deserialize_bool, cbor_deserialize_float_half, cbor_deserialize_float,
    cbor_deserialize_double, cbor_deserialize_byte_string, cbor_deserialize_unicode_string,
    cbor_deserialize_array, cbor_deserialize_map.
  rewrite !Ht.
  unfold cbor_deserialize_indefinite_array, cbor_deserialize_indefinite_map.
  rewrite !(rd_destroyed st off).
  destruct (v >=? 0); subst s; repeat split; reflexivity.
Qed.


Lemma spec_min_width_range (u : Z) : 1 <= spec_min_width u <= 9.
Proof.
  unfold spec_min_width.
  destruct (u <=? 23); [| destruct (u <=? 0xff);
    [| destruct (u <=? 0xffff); [| destruct (u <=? 0xffffffff)]]]; lia.
Qed.

Lemma write_epoch_tag (st : cbor_stream_t) :
  stream_wf st -> pos st + 1 < size st ->
  cbor_write_tag (Some st) CBOR_DATETIME_EPOCH_FOLLOWS
  = Ok (1, Some (mk_stream (<[Z.to_nat (pos st) := 0xC1]> (data st)) (size st) (pos st + 1))).
Proof. intros Hwf Hroom. unfold cbor_write_tag. rewrite cbor_single_byte_eq by assumption. reflexivity. Qed.

(** X11: [cbor_serialize_date_time_epoch] of a non-negative [v] with room for it
    writes the tag byte and the integer head ([1 + spec_min_width v] bytes);
    [cbor_deserialize_date_time_epoch] reads [v] back with the same count,
    and faults when given a null output pointer, which it dereferences. *)
Theorem date_time_epoch_roundtrip (st : cbor_stream_t) (v o : Z) :
  stream_wf st -> 0 <= v < 2 ^ 63 -> pos st + 1 + spec_min_width v < size st ->
  exists s', cbor_serialize_date_time_epoch (Some st) v = Ok (1 + spec_min_width v, s') /\
    cbor_deserialize_date_time_epoch s' (pos st) (Some o) = Ok (1 + spec_min_width v, Some v) /\
    cbor_deserialize_date_time_epoch s' (pos st) None = Fault.
Proof.
  intros Hwf Hv Hroom. assert (Hwf' := Hwf). destruct Hwf' as (Hp & Hlen & Hmax).
  pose proof (spec_min_width_range v) as Hw.
  set (st1 := mk_stream (<[Z.to_nat (pos st) := 0xC1]> (data st)) (size st) (pos st + 1)).
  assert (Hwf1 : stream_wf st1).
  { unfold st1, stream_wf; cbn [pos size data]. rewrite length_insert. lia. }
  assert (Hv64 : 0 <= v < 2 ^ 64) by (split; [lia |]; apply (Z.lt_trans _ (2 ^ 63)); [lia | reflexivity]).
  assert (Hroom1 : pos st1 + spec_min_width v < size st1) by (unfold st1; cbn [pos size]; lia).
  destruct (encode_decode_head CBOR_UINT st1 v ltac:(cbv; tauto) Hwf1 Hv64 Hroom1)
    as (st' & He & Hd & Hs & Hps & HT & HD).
  exists (Some st').
  unfold cbor_serialize_date_time_epoch, CBOR_ENSURE_SIZE. cbn [deref mbind res_bind].
  unfold size_t at 1. rewrite Z.mod_small by lia.
  destruct (_ >=? _) eqn:Ege; [apply Z.geb_le in Ege; lia |].
  destruct (v <? 0) eqn:Elt; [apply Z.ltb_lt in Elt; lia |].
  rewrite write_epoch_tag by (assumption || lia). fold st1. cbn [mbind res_bind Z.eqb].
  unfold u64. rewrite (Z.mod_small v) by lia. rewrite He. cbn [mbind res_bind].
  unfold size_t. rewrite Z.mod_small by lia. rewrite Z.add_comm. split; [reflexivity |].
  assert (Hr : rd st' (pos st) = Ok 0xC1).
  { unfold rd. destruct (0 <=? pos st) eqn:E; [| apply Z.leb_gt in E; lia].
    rewrite Hd. rewrite list_write_lookup_lt by (cbn [pos st1]; lia).
    cbn [data st1]. rewrite list_lookup_insert_eq by lia. reflexivity. }
  assert (Hdes : forall out, cbor_deserialize_date_time_epoch (Some st') (pos st) out
                   = (_ ← deref out; mret (1 + spec_min_width v, Some v))).
  { intros out.
    assert (HT0 : CBOR_TYPE (Some st') (pos st) = Ok CBOR_TAG)
      by (unfold CBOR_TYPE; cbn [deref mbind res_bind]; rewrite Hr; reflexivity).
    assert (HA0 : CBOR_ADDITIONAL_INFO (Some st') (pos st) = Ok CBOR_DATETIME_EPOCH_FOLLOWS)
      by (unfold CBOR_ADDITIONAL_INFO; cbn [deref mbind res_bind]; rewrite Hr; reflexivity).
    unfold cbor_deserialize_date_time_epoch. rewrite HT0. cbn [mbind res_bind].
    change (CBOR_TAG =? CBOR_TAG) with true. cbn [negb]. rewrite HA0. cbn [mbind res_bind].
    change (CBOR_DATETIME_EPOCH_FOLLOWS =? CBOR_DATETIME_EPOCH_FOLLOWS) with true. cbn [negb].
    replace (size_t (pos st + 1)) with (pos st1) by (unfold size_t; cbn [st1 pos]; rewrite Z.mod_small; [reflexivity | lia]).
    unfold cbor_deserialize_uint64_t. rewrite HT. cbn [mbind res_bind].
    change (CBOR_UINT =? CBOR_UINT) with true. cbn [negb orb is_null default].
    rewrite HD. cbn [mbind res_bind mret res_ret].
    destruct (spec_min_width v =? 0) eqn:E0; [apply Z.eqb_eq in E0; lia |].
    destruct out; cbn [deref mbind res_bind]; [| reflexivity].
    unfold size_t. rewrite Z.mod_small by lia. rewrite Z.add_comm.
    change (default 0 (Some v)) with v. replace (to_int64 v) with (to_int64 (u64 v))
      by (unfold u64; rewrite Z.mod_small by exact Hv64; reflexivity).
    rewrite to_int64_u64 by lia. reflexivity. }
  rewrite !Hdes. split; reflexivity.
Qed.

Lemma date_time_epoch_roundtrip_witness :
  exists s', cbor_serialize_date_time_epoch (Some (empty_stream 16)) 1000 = Ok (1 + spec_min_width 1000, s') /\
    cbor_deserialize_date_time_epoch s' (pos (empty_stream 16)) (Some 0) = Ok (1 + spec_min_width 1000, Some 1000) /\
    cbor_deserialize_date_time_epoch s' (pos (empty_stream 16)) None = Fault.
Proof.
  apply (date_time_epoch_roundtrip (empty_stream 16) 1000 0).
  all: wit_side.
Defined.


(** X12: [cbor_serialize_date_time_epoch] writes nothing for a negative value
    or when fewer than 3 bytes are left, and when the tag fits but the
    integer does not, it leaves the tag byte 0xC1 written and returns 1. *)
Theorem date_time_epoch_no_full_write (st : cbor_stream_t) (v : Z) :
  stream_wf st -> pos st + 10 < 2 ^ 64 ->
  (v < 0 -> cbor_serialize_date_time_epoch (Some st) v = Ok (0, Some st)) /\
  (0 <= v -> size st <= pos st + 2 -> cbor_serialize_date_time_epoch (Some st) v = Ok (0, Some st)) /\
  (0 <= v < 2 ^ 63 -> pos st + 2 < size st <= pos st + 1 + spec_min_width v ->
   cbor_serialize_date_time_epoch (Some st) v
   = Ok (1, Some (mk_stream (<[Z.to_nat (pos st) := 0xC1]> (data st)) (size st) (pos st + 1)))).
Proof.
  intros Hwf Hmax64. assert (Hwf' := Hwf). destruct Hwf' as (Hp & Hlen & Hmax).
  pose proof (spec_min_width_range v) as Hw.
  unfold cbor_serialize_date_time_epoch, CBOR_ENSURE_SIZE. cbn [deref mbind res_bind].
  assert (Hs2 : size_t (pos st + 2) = pos st + 2) by (unfold size_t; apply Z.mod_small; lia).
  rewrite !Hs2. split; [| split].
  - intros Hv. destruct (_ >=? _); [reflexivity |].
    rewrite (proj2 (Z.ltb_lt v 0) Hv). reflexivity.
  - intros Hv Hfull. destruct (_ >=? _) eqn:Ege; [reflexivity |].
    apply geb_false in Ege. lia.
  - intros Hv Hpart.
    destruct (_ >=? _) eqn:Ege; [apply Z.geb_le in Ege; lia |].
    destruct (v <? 0) eqn:Elt; [apply Z.ltb_lt in Elt; lia |].
    rewrite write_epoch_tag by (assumption || lia). cbn [mbind res_bind Z.eqb].
    unfold u64. rewrite (Z.mod_small v) by lia.
    rewrite encode_int_full by (cbn [pos size]; lia). reflexivity.
Qed.

Lemma date_time_epoch_no_full_write_witness :
  (1000 < 0 -> cbor_serialize_date_time_epoch (Some (empty_stream 4)) 1000 = Ok (0, Some (empty_stream 4))) /\
  (0 <= 1000 -> size (empty_stream 4) <= pos (empty_stream 4) + 2 -> cbor_serialize_date_time_epoch (Some (empty_stream 4)) 1000 = Ok (0, Some (empty_stream 4))) /\
  (0 <= 1000 < 2 ^ 63 -> pos (empty_stream 4) + 2 < size (empty_stream 4) <= pos (empty_stream 4) + 1 + spec_min_width 1000 ->
   cbor_serialize_date_time_epoch (Some (empty_stream 4)) 1000
   = Ok (1, Some (mk_stream (<[Z.to_nat (pos (empty_stream 4)) := 0xC1]> (data (empty_stream 4))) (size (empty_stream 4)) (pos (empty_stream 4) + 1)))).
Proof.
  apply (date_time_epoch_no_full_write (empty_stream 4) 1000).
  all: wit_side.
Defined.


Lemma uint64_write_read (st : cbor_stream_t) (N o : Z) :
  stream_wf st -> 0 <= N < 2 ^ 64 -> pos st + spec_min_width N < size st ->
  exists s', cbor_serialize_uint64_t (Some st) N = Ok (spec_min_width N, s') /\
    cbor_deserialize_uint64_t s' (pos st) (Some o) = Ok (spec_min_width N, Some N).
Proof.
  intros Hwf HN Hroom.
  destruct (encode_decode_head CBOR_UINT st N ltac:(cbv; tauto) Hwf HN Hroom)
    as (st' & He & _ & _ & _ & HT & HD).
  exists (Some st'). unfold cbor_serialize_uint64_t. rewrite He. split; [reflexivity |].
  unfold cbor_deserialize_uint64_t. rewrite HT. cbn [mbind res_bind].
  rewrite HD. reflexivity.
Qed.

(** X13: [cbor_init] on a buffer of at least [sz] bytes yields a well-formed
    stream at position 0, in which an unsigned integer that fits can be
    written and read back at offset 0. *)
Theorem init_stream_ready (st0 : cbor_stream_t) (buf : list Z) (sz N o : Z) :
  0 <= sz <= Z.of_nat (length buf) -> sz < 2 ^ 64 ->
  0 <= N < 2 ^ 64 -> spec_min_width N < sz ->
  exists s1, cbor_init (Some st0) buf sz = Some s1 /\ stream_wf s1 /\ pos s1 = 0 /\
    exists s', cbor_serialize_uint64_t (Some s1) N = Ok (spec_min_width N, s') /\
      cbor_deserialize_uint64_t s' 0 (Some o) = Ok (spec_min_width N, Some N).
Proof.
  intros Hsz Hmax HN Hroom.
  exists (mk_stream buf sz 0). split; [reflexivity |].
  assert (Hwf : stream_wf (mk_stream buf sz 0)) by (unfold stream_wf; cbn; lia).
  split; [exact Hwf | split; [reflexivity |]].
  exact (uint64_write_read (mk_stream buf sz 0) N o Hwf HN ltac:(cbn; lia)).
Qed.

Lemma init_stream_ready_witness :
  exists s1, cbor_init (Some (empty_stream 1)) (repeat 0 8) 8 = Some s1 /\ stream_wf s1 /\ pos s1 = 0 /\
    exists s', cbor_serialize_uint64_t (Some s1) 300 = Ok (spec_min_width 300, s') /\
      cbor_deserialize_uint64_t s' 0 (Some 0) = Ok (spec_min_width 300, Some 300).
Proof.
  apply (init_stream_ready (empty_stream 1) (repeat 0 8) 8 300 0).
  all: wit_side.
Defined.


(** X14: [cbor_clear] keeps the buffer and size and rewinds the position to 0;
    the stream stays well-formed and an integer that fits can again be
    written and read back at offset 0. *)
Theorem clear_rewinds (st : cbor_stream_t) (N o : Z) :
  stream_wf st -> 0 <= N < 2 ^ 64 -> spec_min_width N < size st ->
  exists s1, cbor_clear (Some st) = Some s1 /\ stream_wf s1 /\ pos s1 = 0 /\
    exists s', cbor_serialize_uint64_t (Some s1) N = Ok (spec_min_width N, s') /\
      cbor_deserialize_uint64_t s' 0 (Some o) = Ok (spec_min_width N, Some N).
Proof.
  intros (Hp & Hlen & Hmax) HN Hroom.
  exists (mk_stream (data st) (size st) 0). split; [reflexivity |].
  assert (Hwf : stream_wf (mk_stream (data st) (size st) 0)) by (unfold stream_wf; cbn; lia).
  split; [exact Hwf | split; [reflexivity |]].
  exact (uint64_write_read _ N o Hwf HN ltac:(cbn; lia)).
Qed.

Lemma clear_rewinds_witness :
  exists s1, cbor_clear (Some (mk_stream (repeat 0 8) 8 5)) = Some s1 /\ stream_wf s1 /\ pos s1 = 0 /\
    exists s', cbor_serialize_uint64_t (Some s1) 300 = Ok (spec_min_width 300, s') /\
      cbor_deserialize_uint64_t s' 0 (Some 0) = Ok (spec_min_width 300, Some 300).
Proof.
  apply (clear_rewinds (mk_stream (repeat 0 8) 8 5) 300 0).
  all: wit_side.
Defined.


Ltac in_list := repeat first [left; reflexivity | right].

Lemma decode_at_no_case (fuel : nat) (st : cbor_stream_t) (off t : Z) :
  CBOR_TYPE (Some st) off = Ok t ->
  ~ In t [CBOR_UINT; CBOR_BYTES; CBOR_TEXT; CBOR_ARRAY; CBOR_MAP; CBOR_TAG; CBOR_7] ->
  cbor_stream_decode_at (S fuel) (Some st) off = Some (Ok 0).
Proof.
  intros HT Hn. cbn [cbor_stream_decode_at]. rewrite HT. cbn [wbind].
  cbn [In] in Hn.
  destruct (Z.eqb_spec t CBOR_UINT); [exfalso; apply Hn; subst t; in_list |].
  destruct (Z.eqb_spec t CBOR_BYTES); [exfalso; apply Hn; subst t; in_list |].
  destruct (Z.eqb_spec t CBOR_TEXT); [exfalso; apply Hn; subst t; in_list |].
  destruct (Z.eqb_spec t CBOR_ARRAY); [exfalso; apply Hn; subst t; in_list |].
  destruct (Z.eqb_spec t CBOR_MAP); [exfalso; apply Hn; subst t; in_list |].
  destruct (Z.eqb_spec t CBOR_TAG); [exfalso; apply Hn; subst t; in_list |].
  destruct (Z.eqb_spec t CBOR_7); [exfalso; apply Hn; subst t; in_list |].
  reflexivity.
Qed.

(** X15: a negative 32-bit integer written by [cbor_serialize_int] at the start
    of a stream is read back by [cbor_deserialize_int], but
    [cbor_stream_decode_at] has no case for major type 1 and returns 0 for it,
    so [cbor_stream_decode] stops at offset 0 and reports failure. *)
Theorem stream_decode_rejects_negint (st : cbor_stream_t) (v o : Z) (fuel : nat) :
  stream_wf st -> pos st = 0 -> -2 ^ 31 <= v < 0 -> spec_min_width (-1 - v) < size st ->
  exists s', cbor_serialize_int (Some st) v = Ok (spec_min_width (-1 - v), Some s') /\
    cbor_deserialize_int (Some s') 0 (Some o) = Ok (spec_min_width (-1 - v), Some v) /\
    cbor_stream_decode_at (S fuel) (Some s') 0 = Some (Ok 0) /\
    cbor_stream_decode (S (S fuel)) (Some s') = Some (Ok (Some 0)).
Proof.
  intros Hwf Hp0 Hv Hroom. assert (Hwf' := Hwf). destruct Hwf' as (Hp & Hlen & Hmax).
  assert (Hu : 0 <= -1 - v < 2 ^ 64) by (split; [lia |]; apply (Z.lt_trans _ (2 ^ 31)); [lia | reflexivity]).
  destruct (encode_decode_head CBOR_NEGINT st (-1 - v) ltac:(cbv; tauto) Hwf Hu ltac:(lia))
    as (st' & He & Hd & Hs & Hps & HT & HD).
  rewrite Hp0 in *.
  exists st'. split.
  { unfold cbor_serialize_int. destruct (v >=? 0) eqn:E; [apply Z.geb_le in E; lia |].
    unfold u64. rewrite (Z.mod_small (-1 - v)) by exact Hu. exact He. }
  pose proof (spec_min_width_range (-1 - v)) as Hw.
  assert (Hdec : cbor_stream_decode_at (S fuel) (Some st') 0 = Some (Ok 0)).
  { apply (decode_at_no_case fuel st' 0 CBOR_NEGINT HT). cbv; lia. }
  split; [| split; [exact Hdec |]].
  - unfold cbor_deserialize_int. rewrite HT. cbn [mbind res_bind]. rewrite HD.
    cbn [mbind res_bind]. rewrite ?HT. cbn [mbind res_bind].
    change (CBOR_NEGINT =? CBOR_UINT) with false. cbn match.
    replace (-1 - (-1 - v)) with v by ring. rewrite to_int32_u64 by lia. reflexivity.
  - unfold cbor_stream_decode. cbn [stream_decode_loop].
    rewrite Hps. destruct (0 <? 0 + spec_min_width (-1 - v)) eqn:E; [| apply Z.ltb_ge in E; lia].
    rewrite Hdec. cbn [wbind Z.eqb].
    unfold CBOR_TYPE in HT. cbn [deref mbind res_bind] in HT.
    destruct (rd st' 0) as [| b] eqn:Hr; [discriminate |]. cbn [mbind res_bind].
    unfold cbor_stream_print, dump_memory. cbn [deref mbind res_bind]. rewrite Hps.
    destruct (0 + spec_min_width (-1 - v) =? 0) eqn:E0; [apply Z.eqb_eq in E0; lia |].
    unfold read_bytes. rewrite Hd, length_list_write.
    destruct ((0 <=? 0) && (0 <=? 0 + spec_min_width (-1 - v)) &&
              (0 + (0 + spec_min_width (-1 - v)) <=? Z.of_nat (length (data st)))) eqn:E1;
      [reflexivity |].
    exfalso. rewrite !andb_false_iff in E1. destruct E1 as [[E1 | E1] | E1];
      rewrite ?Z.leb_gt in E1; lia.
Qed.

Lemma stream_decode_rejects_negint_witness :
  exists s', cbor_serialize_int (Some (empty_stream 8)) (-100) = Ok (spec_min_width (-1 - (-100)), Some s') /\
    cbor_deserialize_int (Some s') 0 (Some 0) = Ok (spec_min_width (-1 - (-100)), Some (-100)) /\
    cbor_stream_decode_at (S 3%nat) (Some s') 0 = Some (Ok 0) /\
    cbor_stream_decode (S (S 3%nat)) (Some s') = Some (Ok (Some 0)).
Proof.
  apply (stream_decode_rejects_negint (empty_stream 8) (-100) 0 3%nat).
  all: wit_side.
Defined.






Lemma decode_int_small (st : cbor_stream_t) (off b x : Z) :
  rd st off = Ok b -> Z.land b CBOR_INFO_MASK <= 23 ->
  decode_int (Some st) off x = Ok (1, Z.land b CBOR_INFO_MASK).
Proof.
  intros Hr Hb. unfold decode_int. rewrite Hr. cbn [mbind res_bind].
  rewrite (proj2 (Z.leb_le _ _) Hb). reflexivity.
Qed.

Lemma decode_at_empty_container (st : cbor_stream_t) (off b : Z) (fuel : nat) :
  In b [0x80; 0xA0] -> 0 <= off -> off + 1 < 2 ^ 64 -> rd st off = Ok b ->
  cbor_stream_decode_at (S (S fuel)) (Some st) off
  = Some (cbor_at_break (Some st) (off + 1) ≫= fun (ab : bool) => mret (if ab then 2 else 1)).
Proof.
  intros Hb H0 H1 Hr.
  assert (Hs : size_t (off + 1) = off + 1) by (unfold size_t; apply Z.mod_small; lia).
  destruct Hb as [<- | [<- | []]].
  - assert (HT : CBOR_TYPE (Some st) off = Ok CBOR_ARRAY)
      by (unfold CBOR_TYPE; cbn; rewrite Hr; reflexivity).
    cbn [cbor_stream_decode_at]. rewrite HT. cbn [wbind].
    change (CBOR_ARRAY =? CBOR_UINT) with false. change (CBOR_ARRAY =? CBOR_BYTES) with false.
    change (CBOR_ARRAY =? CBOR_TEXT) with false. change (CBOR_ARRAY =? CBOR_ARRAY) with true.
    cbn match. cbn [deref mbind res_bind]. rewrite Hr. cbn [mbind res_bind mret res_ret wbind].
    change (0x80 =? Z.lor CBOR_ARRAY CBOR_VAR_FOLLOWS) with false. cbn match.
    rewrite (decode_int_small st off 0x80 0 Hr) by (cbv; discriminate). cbn [wbind].
    change (Z.land 128 CBOR_INFO_MASK) with 0. cbn. rewrite Hs.
    destruct (cbor_at_break (Some st) (off + 1)) as [| []]; reflexivity.
  - assert (HT : CBOR_TYPE (Some st) off = Ok CBOR_MAP)
      by (unfold CBOR_TYPE; cbn; rewrite Hr; reflexivity).
    cbn [cbor_stream_decode_at]. rewrite HT. cbn [wbind].
    change (CBOR_MAP =? CBOR_UINT) with false. change (CBOR_MAP =? CBOR_BYTES) with false.
    change (CBOR_MAP =? CBOR_TEXT) with false. change (CBOR_MAP =? CBOR_ARRAY) with false.
    change (CBOR_MAP =? CBOR_MAP) with true.
    cbn match. cbn [deref mbind res_bind]. rewrite Hr. cbn [mbind res_bind mret res_ret wbind].
    change (0xA0 =? Z.lor CBOR_MAP CBOR_VAR_FOLLOWS) with false. cbn match.
    rewrite (decode_int_small st off 0xA0 0 Hr) by (cbv; discriminate). cbn [wbind].
    change (Z.land 0xA0 CBOR_INFO_MASK) with 0. cbn. rewrite Hs.
    destruct (cbor_at_break (Some st) (off + 1)) as [| []]; reflexivity.
Qed.

(** X17: for an empty definite array or map (0x80, 0xA0),
    [cbor_stream_decode_at] returns 2 if the next offset is at the end of the
    stream (as [cbor_at_end] computes it) or holds the break byte 0xFF, and 1
    if it holds any other byte. *)
Theorem stream_decode_empty_container (st : cbor_stream_t) (off b : Z) (fuel : nat) :
  In b [0x80; 0xA0] -> 0 <= off -> off + 1 < 2 ^ 64 -> rd st off = Ok b ->
  (size_t (pos st - 1) <= off + 1 ->
   cbor_stream_decode_at (S (S fuel)) (Some st) off = Some (Ok 2)) /\
  (off + 1 < size_t (pos st - 1) -> rd st (off + 1) = Ok CBOR_BREAK ->
   cbor_stream_decode_at (S (S fuel)) (Some st) off = Some (Ok 2)) /\
  (forall c, off + 1 < size_t (pos st - 1) -> rd st (off + 1) = Ok c -> c <> CBOR_BREAK ->
   cbor_stream_decode_at (S (S fuel)) (Some st) off = Some (Ok 1)).
Proof.
  intros Hb H0 H1 Hr. rewrite (decode_at_empty_container st off b fuel Hb H0 H1 Hr).
  unfold cbor_at_break, cbor_at_end.
  split; [| split].
  - intros He. rewrite (proj2 (Z.leb_le _ _) He). reflexivity.
  - intros He Hbr. rewrite (proj2 (Z.leb_gt _ _) He). cbn [deref mbind res_bind].
    rewrite Hbr. reflexivity.
  - intros c He Hc Hne. rewrite (proj2 (Z.leb_gt _ _) He). cbn [deref mbind res_bind].
    rewrite Hc. cbn [mbind res_bind mret res_ret].
    destruct (Z.eqb_spec c CBOR_BREAK); [contradiction | reflexivity].
Qed.

Lemma stream_decode_empty_container_witness :
  (size_t (pos (mk_stream [0x80; 0xFF; 0; 0] 4 2) - 1) <= 0 + 1 ->
   cbor_stream_decode_at (S (S 1%nat)) (Some (mk_stream [0x80; 0xFF; 0; 0] 4 2)) 0 = Some (Ok 2)) /\
  (0 + 1 < size_t (pos (mk_stream [0x80; 0xFF; 0; 0] 4 2) - 1) -> rd (mk_stream [0x80; 0xFF; 0; 0] 4 2) (0 + 1) = Ok CBOR_BREAK ->
   cbor_stream_decode_at (S (S 1%nat)) (Some (mk_stream [0x80; 0xFF; 0; 0] 4 2)) 0 = Some (Ok 2)) /\
  (forall c, 0 + 1 < size_t (pos (mk_stream [0x80; 0xFF; 0; 0] 4 2) - 1) -> rd (mk_stream [0x80; 0xFF; 0; 0] 4 2) (0 + 1) = Ok c -> c <> CBOR_BREAK ->
   cbor_stream_decode_at (S (S 1%nat)) (Some (mk_stream [0x80; 0xFF; 0; 0] 4 2)) 0 = Some (Ok 1)).
Proof.
  apply (stream_decode_empty_container (mk_stream [0x80; 0xFF; 0; 0] 4 2) 0 0x80 1%nat).
  all: try (left; reflexivity).
  all: wit_side.
Defined.













